(** * EnsimeClient: the connection and session manager of ensime-sublime

    A shallow embedding of [ensimesublime/client.py].  The client object is a
    record of the attributes the methods read and write; the methods are
    functions in a small state-and-exception monad.  Everything the client
    does not control (the websocket, the wall clock, the queue-poller thread
    running next to a caller) is described by a [world] that the methods
    consume as they run.

    Conventions.
    - Wall-clock readings ([time.time()]) are integers counting milliseconds;
      [timeout=30] is [seconds 30], [time.sleep(0.25)] lasts at least
      [poll_interval].  The clock only moves while the caller sleeps or spins,
      so two consecutive readings such as [start, now = time.time(), time.time()]
      are equal.
    - JSON numbers are integers (floats are left out).
    - Logger calls have no effect on the client and are not modelled. *)

From Stdlib Require Import ZArith Lia.
From stdpp Require Import base decidable option list countable strings gmap.

Local Set Warnings "-register-all".
Local Open Scope string_scope.
Local Open Scope Z_scope.

(** ** JSON values, as [json.loads] produces them *)

Inductive json : Type :=
  | JNull
  | JBool (b : bool)
  | JInt (n : Z)
  | JStr (s : string)
  | JArr (items : list json)
  | JObj (fields : list (string * json)).

(** Python truthiness: [if result], [if _json["payload"]]. *)
Definition truthy (j : json) : bool :=
  match j with
  | JNull => false
  | JBool b => b
  | JInt n => negb (n =? 0)
  | JStr s => negb (bool_decide (s = ""))
  | JArr items => match items with [] => false | _ => true end
  | JObj fields => match fields with [] => false | _ => true end
  end.

(** [result != "nil"]. *)
Definition is_nil_string (j : json) : bool :=
  match j with
  | JStr s => bool_decide (s = "nil")
  | _ => false
  end.

(** A parsed object is kept as its list of fields; a name is looked up
    from the left. *)
Fixpoint assoc (name : string) (fields : list (string * json)) : option json :=
  match fields with
  | [] => None
  | (n, v) :: rest => if bool_decide (n = name) then Some v else assoc name rest
  end.

(** ** Exceptions *)

Inductive exn : Type :=
  | WebSocketException
  | ValueError        (* json.loads on text that is not JSON *)
  | AttributeError    (* x.get(...) on a value without that method, None.http_port() *)
  | KeyError          (* d[k] and del d[k] on a missing key *)
  | TypeError.        (* an unhashable value used as a dict key *)

Global Instance exn_eq_dec : EqDecision exn.
Proof. solve_decision. Defined.

(** [d.get(name)]: [None] (here [JNull]) when the name is missing; only
    dicts have the method. *)
Definition py_get (name : string) (d : json) : exn + json :=
  match d with
  | JObj fields => inr (default JNull (assoc name fields))
  | _ => inl AttributeError
  end.

(** [d[name]] on a parsed message: [KeyError] when a dict lacks the name.
    A list or a string indexed by a name is a [TypeError]; the other values
    cannot be indexed at all. *)
Definition py_index (name : string) (d : json) : exn + json :=
  match d with
  | JObj fields =>
      match assoc name fields with
      | Some v => inr v
      | None => inl KeyError
      end
  | _ => inl TypeError
  end.

(** ** Keys of the [responses] dict

    A dict key is a hashable Python value.  [True] and [1] are the same key
    (equal, with equal hashes), so are [False] and [0]; lists and dicts are
    unhashable. *)

Inductive pykey : Type :=
  | KNone
  | KInt (n : Z)
  | KStr (s : string).

Global Instance pykey_eq_dec : EqDecision pykey.
Proof. solve_decision. Defined.

Definition pykey_encode (k : pykey) : unit + (Z + string) :=
  match k with
  | KNone => inl tt
  | KInt n => inr (inl n)
  | KStr s => inr (inr s)
  end.

Definition pykey_decode (x : unit + (Z + string)) : pykey :=
  match x with
  | inl _ => KNone
  | inr (inl n) => KInt n
  | inr (inr s) => KStr s
  end.

Global Instance pykey_countable : Countable pykey.
Proof.
  apply (inj_countable' pykey_encode pykey_decode).
  intros []; reflexivity.
Defined.

Definition hash_key (j : json) : option pykey :=
  match j with
  | JNull => Some KNone
  | JBool b => Some (KInt (if b then 1 else 0))
  | JInt n => Some (KInt n)
  | JStr s => Some (KStr s)
  | JArr _ | JObj _ => None
  end.

(** ** The client object *)

(** The value of [gconfig['ensime_server'].format(port, uri)]. *)
Record address : Type := Address { addr_port : Z; addr_path : string }.

(** The object [websocket.create_connection] returns. *)
Record websocket : Type := WebSocket { ws_address : address }.

(** The launched server process, [self.ensime]: the port it serves, and
    the time from which [is_ready()] holds. *)
Record process : Type := Process { http_port : Z; ready_at : Z }.

Record client : Type := Client {
  ws : option websocket;
  ensime : option process;
  ensime_server : option address;
  call_id : Z;
  responses : gmap pykey json;
  number_try_connection : Z;
  running : bool;
  connected : bool
}.

(** [EnsimeClient.__init__] *)
Definition init : client :=
  {| ws := None; ensime := None; ensime_server := None;
     call_id := 1; responses := ∅; number_try_connection := 1;
     running := true; connected := false |}.

(** ** The world around the client *)

(** What [self.ws.recv()] followed by [json.loads] comes to. *)
Inductive recv_result : Type :=
  | RecvFails                 (* recv raises WebSocketException *)
  | RecvMalformed             (* text that json.loads rejects *)
  | RecvJson (j : json).      (* text that json.loads turns into j *)

(** One pass of a waiting caller through its loop: what the queue-poller
    thread received meanwhile, which entries other callers, waiting in
    [get_response] on threads of their own, deleted from the registry
    meanwhile, and how long the pass took. *)
Record tick : Type := Tick {
  arrivals : list recv_result;
  taken : list pykey;
  elapsed : Z
}.

(** What the collaborators saw the client do. *)
Inductive event : Type :=
  | Connect (a : address)           (* websocket.create_connection(a, ...) called *)
  | Transmit (msg : json)           (* ws.send(json.dumps(msg) + "\n") went through *)
  | Stopped                         (* ensime.stop() *)
  | Uncolorized                     (* env.editor.uncolorize_all() *)
  | Warning                         (* sublime.error_message(warning) *)
  | Handled (call_id payload : json). (* handle_incoming_response(call_id, payload) *)

Record world : Type := World {
  send_script : list bool;      (* successive ws.send calls: true goes through, false raises *)
  connect_script : list bool;   (* successive create_connection calls, likewise *)
  ticks : list tick;            (* successive passes of a waiting caller *)
  clock : Z;                    (* time.time() *)
  poller_alive : bool;          (* the queue-poller thread has not ended *)
  trace : list event;
  issued : list Z               (* ghost: the ids send_request has returned, oldest first *)
}.

Record state : Type := State { self : client; env : world }.

(** Field updates. *)
Definition set_ws (v : option websocket) (s : state) : state :=
  let c := self s in
  {| self := {| ws := v; ensime := ensime c; ensime_server := ensime_server c;
                call_id := call_id c; responses := responses c;
                number_try_connection := number_try_connection c;
                running := running c; connected := connected c |};
     env := env s |}.

Definition set_ensime (v : option process) (s : state) : state :=
  let c := self s in
  {| self := {| ws := ws c; ensime := v; ensime_server := ensime_server c;
                call_id := call_id c; responses := responses c;
                number_try_connection := number_try_connection c;
                running := running c; connected := connected c |};
     env := env s |}.

Definition set_ensime_server (v : option address) (s : state) : state :=
  let c := self s in
  {| self := {| ws := ws c; ensime := ensime c; ensime_server := v;
                call_id := call_id c; responses := responses c;
                number_try_connection := number_try_connection c;
                running := running c; connected := connected c |};
     env := env s |}.

Definition set_call_id (v : Z) (s : state) : state :=
  let c := self s in
  {| self := {| ws := ws c; ensime := ensime c; ensime_server := ensime_server c;
                call_id := v; responses := responses c;
                number_try_connection := number_try_connection c;
                running := running c; connected := connected c |};
     env := env s |}.

Definition set_responses (v : gmap pykey json) (s : state) : state :=
  let c := self s in
  {| self := {| ws := ws c; ensime := ensime c; ensime_server := ensime_server c;
                call_id := call_id c; responses := v;
                number_try_connection := number_try_connection c;
                running := running c; connected := connected c |};
     env := env s |}.

Definition set_number_try_connection (v : Z) (s : state) : state :=
  let c := self s in
  {| self := {| ws := ws c; ensime := ensime c; ensime_server := ensime_server c;
                call_id := call_id c; responses := responses c;
                number_try_connection := v;
                running := running c; connected := connected c |};
     env := env s |}.

Definition set_running (v : bool) (s : state) : state :=
  let c := self s in
  {| self := {| ws := ws c; ensime := ensime c; ensime_server := ensime_server c;
                call_id := call_id c; responses := responses c;
                number_try_connection := number_try_connection c;
                running := v; connected := connected c |};
     env := env s |}.

Definition set_connected (v : bool) (s : state) : state :=
  let c := self s in
  {| self := {| ws := ws c; ensime := ensime c; ensime_server := ensime_server c;
                call_id := call_id c; responses := responses c;
                number_try_connection := number_try_connection c;
                running := running c; connected := v |};
     env := env s |}.

Definition set_send_script (v : list bool) (s : state) : state :=
  let w := env s in
  {| self := self s;
     env := {| send_script := v; connect_script := connect_script w; ticks := ticks w;
               clock := clock w; poller_alive := poller_alive w; trace := trace w;
               issued := issued w |} |}.

Definition set_connect_script (v : list bool) (s : state) : state :=
  let w := env s in
  {| self := self s;
     env := {| send_script := send_script w; connect_script := v; ticks := ticks w;
               clock := clock w; poller_alive := poller_alive w; trace := trace w;
               issued := issued w |} |}.

Definition set_ticks (v : list tick) (s : state) : state :=
  let w := env s in
  {| self := self s;
     env := {| send_script := send_script w; connect_script := connect_script w; ticks := v;
               clock := clock w; poller_alive := poller_alive w; trace := trace w;
               issued := issued w |} |}.

Definition set_clock (v : Z) (s : state) : state :=
  let w := env s in
  {| self := self s;
     env := {| send_script := send_script w; connect_script := connect_script w; ticks := ticks w;
               clock := v; poller_alive := poller_alive w; trace := trace w;
               issued := issued w |} |}.

Definition set_poller_alive (v : bool) (s : state) : state :=
  let w := env s in
  {| self := self s;
     env := {| send_script := send_script w; connect_script := connect_script w; ticks := ticks w;
               clock := clock w; poller_alive := v; trace := trace w;
               issued := issued w |} |}.

(** An effect on a collaborator is appended to the trace. *)
Definition emit (e : event) (s : state) : state :=
  let w := env s in
  {| self := self s;
     env := {| send_script := send_script w; connect_script := connect_script w; ticks := ticks w;
               clock := clock w; poller_alive := poller_alive w; trace := trace w ++ [e];
               issued := issued w |} |}.

(** Ghost: [send_request] returned [id]. *)
Definition issue (id : Z) (s : state) : state :=
  let w := env s in
  {| self := self s;
     env := {| send_script := send_script w; connect_script := connect_script w; ticks := ticks w;
               clock := clock w; poller_alive := poller_alive w; trace := trace w;
               issued := issued w ++ [id] |} |}.

(** ** Running a method *)

Inductive outcome (A : Type) : Type :=
  | Ok (a : A) (s : state)          (* returned a *)
  | Raised (e : exn) (s : state)    (* left by an uncaught exception *)
  | Unfinished (s : state).         (* still running where the described world ends *)

Arguments Ok {A} a s.
Arguments Raised {A} e s.
Arguments Unfinished {A} s.

Definition M (A : Type) : Type := state → outcome A.

Definition ret {A} (a : A) : M A := fun s => Ok a s.

Definition raise {A} (e : exn) : M A := fun s => Raised e s.

Definition bind {A B} (m : M A) (k : A → M B) : M B := fun s =>
  match m s with
  | Ok a s' => k a s'
  | Raised e s' => Raised e s'
  | Unfinished s' => Unfinished s'
  end.

Notation "'do' x <- m ; k" := (bind m (fun x => k))
  (at level 10, x name, m at level 100, k at level 200, only parsing).
Notation "'run' m ; k" := (bind m (fun _ => k))
  (at level 10, m at level 100, k at level 200, only parsing).

Definition modify (f : state → state) : M unit := fun s => Ok tt (f s).

Definition lift {A} (r : exn + A) : M A :=
  match r with
  | inl e => raise e
  | inr a => ret a
  end.

(** The state a call leaves behind, however it ended. *)
Definition final {A} (o : outcome A) : state :=
  match o with
  | Ok _ s | Raised _ s | Unfinished s => s
  end.

(** The value a call returned, if it returned. *)
Definition returned {A} (o : outcome A) : option A :=
  match o with
  | Ok a _ => Some a
  | _ => None
  end.

(** The exception a call was left by, if any. *)
Definition raised {A} (o : outcome A) : option exn :=
  match o with
  | Raised e _ => Some e
  | _ => None
  end.

(** ** Time *)

Definition seconds (n : Z) : Z := 1000 * n.

(** [time.sleep(0.25)] in [get_response]. *)
Definition poll_interval : Z := 250.

(** ** Collaborators *)

(** Modelled from the spec: [catch] of [util.py], which is not among the
    sources.  The spec describes it as catching one class of failure at the
    call site and running a recovery action: [with catch(cls, handler): body]
    runs [body]; when [body] is left by an exception of class [cls] the
    handler runs in its place; any other exception passes through. *)
Definition catch (cls : exn) (handler : exn → M unit) (body : M unit) : M unit := fun s =>
  match body s with
  | Raised e s' => if decide (e = cls) then handler e s' else Raised e s'
  | o => o
  end.

(** Modelled from the spec: [handle_incoming_response] of [ProtocolHandler]
    ([protocol.py], not among the sources), the handler dispatch the client
    forwards payloads to.  It is an external collaborator: the call is
    recorded and the client is left as it is. *)
Definition handle_incoming_response (call_id payload : json) : M unit :=
  modify (emit (Handled call_id payload)).

Definition _display_ws_warning : M unit := modify (emit Warning).

(** [self.ws.send(msg + "\n")] on an open websocket. *)
Definition ws_send (msg : json) : M unit := fun s =>
  match send_script (env s) with
  | false :: rest => Raised WebSocketException (set_send_script rest s)
  | true :: rest => Ok tt (emit (Transmit msg) (set_send_script rest s))
  | [] => Ok tt (emit (Transmit msg) s)
  end.

(** ** [shutdown_server] and [teardown] *)

Definition shutdown_server : M unit := fun s =>
  let s1 := set_connected false s in
  let s2 := match ensime (self s1) with
            | Some _ => emit Stopped s1
            | None => s1
            end in
  Ok tt (emit Uncolorized s2).

Definition teardown : M unit :=
  run modify (set_running false); shutdown_server.

(** ** [queue_poll] *)

Definition receive (r : recv_result) : M json :=
  match r with
  | RecvFails => raise WebSocketException
  | RecvMalformed => raise ValueError
  | RecvJson j => ret j
  end.

Definition log_and_close (msg : exn) : M unit := fun s =>
  if connected (self s)
  then (run shutdown_server; _display_ws_warning) s
  else Ok tt s.

(** [self.responses[call_id] = _json] *)
Definition store_response (call_id _json : json) : M unit := fun s =>
  match hash_key call_id with
  | Some k => Ok tt (set_responses (<[k := _json]> (responses (self s))) s)
  | None => Raised TypeError s
  end.

(** The [with catch(...)] block of one pass of the loop, on what [recv]
    gives. *)
Definition queue_poll_body (r : recv_result) : M unit :=
  catch WebSocketException log_and_close
    (do _json <- receive r;
     do call_id <- lift (py_get "callId" _json);
     match call_id with
     | JNull =>
         do payload <- lift (py_index "payload" _json);
         if truthy payload then handle_incoming_response call_id payload else ret tt
     | _ => store_response call_id _json
     end).

(** What the loop meets, pass after pass: what [recv] gives, or the main
    thread having called [teardown] since the last pass. *)
Inductive poll_input : Type :=
  | Received (r : recv_result)
  | TornDown.

(** [queue_poll]: [Ok] when the loop ends on [running] being false,
    [Raised] when an exception ends it, [Unfinished] when it is still
    looping after the last input.  Without a websocket a pass receives
    nothing. *)
Fixpoint queue_poll (inputs : list poll_input) (s : state) : outcome unit :=
  if running (self s) then
    match inputs with
    | [] => Unfinished s
    | TornDown :: rest => queue_poll rest (final (teardown s))
    | Received r :: rest =>
        match ws (self s) with
        | None => queue_poll rest s
        | Some _ =>
            match queue_poll_body r s with
            | Ok _ s' => queue_poll rest s'
            | o => o
            end
        end
    end
  else Ok tt s.

(** The queue-poller thread seen from a caller: one pass of its loop. *)
Definition poller_turn (r : recv_result) (s : state) : state :=
  if poller_alive (env s) then
    if running (self s) then
      match ws (self s) with
      | None => s
      | Some _ =>
          match queue_poll_body r s with
          | Ok _ s' => s'
          | Raised _ s' | Unfinished s' => set_poller_alive false s'
          end
      end
    else set_poller_alive false s
  else s.

(** One pass of a waiting caller goes by. *)
Definition advance (t : tick) (s : state) : state :=
  let s1 := fold_left (fun acc r => poller_turn r acc) (arrivals t) s in
  let s2 :=
    set_responses (fold_left (fun m k => delete k m) (taken t) (responses (self s1))) s1 in
  set_clock (clock (env s2) + elapsed t) s2.

(** ** [get_response] *)

(** [del self.responses[call_id]] *)
Definition del_response (call_id : json) : M unit := fun s =>
  match hash_key call_id with
  | None => Raised TypeError s
  | Some k =>
      match responses (self s) !! k with
      | None => Raised KeyError s
      | Some _ => Ok tt (set_responses (delete k (responses (self s))) s)
      end
  end.

(** Lines 239-242: what is done with a result that is neither empty nor
    ["nil"]. *)
Definition unqueue (result : json) : M unit :=
  do call_id <- lift (py_get "callId" result);
  do payload <- lift (py_index "payload" result);
  run (if truthy payload then handle_incoming_response call_id payload else ret tt);
  del_response call_id.

(** The [while] loop, entered with [wait] true.  Each pass takes the next
    tick of the world; [start] and [now] are the loop's two variables. *)
Fixpoint get_response_loop (ts : list tick) (call_id : pykey)
    (start now timeout : Z) (s : state) : outcome bool :=
  if now - start <? timeout then
    match responses (self s) !! call_id with
    | None =>
        match ts with
        | [] => Unfinished (set_ticks [] s)
        | t :: ts' =>
            let s' := advance t s in
            get_response_loop ts' call_id start (clock (env s')) timeout s'
        end
    | Some result =>
        if truthy result && negb (is_nil_string result) then
          (* wait = None; start, now = time.time(), time.time(); the loop
             ends, and the test after it is on these two readings *)
          match unqueue result (set_ticks ts s) with
          | Ok _ s' =>
              let t := clock (env s') in
              Ok (negb (t - t >=? timeout)) s'
          | Raised e s' => Raised e s'
          | Unfinished s' => Unfinished s'
          end
        else
          match ts with
          | [] => Unfinished (set_ticks [] s)
          | t :: ts' => get_response_loop ts' call_id start now timeout (advance t s)
          end
    end
  else Ok false (set_ticks ts s).

Definition get_response (call_id : pykey) (timeout : Z) (should_wait : bool) : M bool := fun s =>
  let start := clock (env s) in
  let now := clock (env s) in
  let wait := should_wait && negb (bool_decide (is_Some (responses (self s) !! call_id))) in
  if wait
  then get_response_loop (ticks (env s)) call_id start now timeout s
  else Ok (negb (now - start >=? timeout)) s.

(** ** [send], [send_request] and [connect_ensime_server]

    [send] reconnects through [connect_ensime_server], which sends its
    handshake through [send_request] and so through [send]: the three are
    written over the connect to call, and [connect_ensime_server] is bounded
    by the depth of such nesting. *)

Section Reconnecting.

Variable connect : M bool.

Definition reconnect (msg : json) (e : exn) : M unit :=
  run connect;
  (fun s => match ws (self s) with
            | Some _ => ws_send msg s
            | None => Ok tt s
            end).

Definition send (msg : json) : M unit := fun s =>
  match ws (self s) with
  | None => Ok tt s
  | Some _ => catch WebSocketException (reconnect msg) (ws_send msg) s
  end.

(** The id returned is the counter as read after [send]; [issue] is ghost,
    it records the id for the statements about sessions. *)
Definition send_request (request : json) : M Z := fun s =>
  let message := JObj [("callId", JInt (call_id (self s))); ("req", request)] in
  (run send message;
   (fun s' =>
      let id := call_id (self s') in
      Ok id (issue id (set_call_id (id + 1) s')))) s.

(** Modelled from the spec: the request object of [ConnectionInfoRequest]
    ([outgoing.py], not among the sources), the dedicated connection-info
    handshake request; its payload schema is outside the spec. *)
Definition connection_info_request : json :=
  JObj [("typehint", JStr "ConnectionInfoReq")].

(** Modelled from the spec: [ConnectionInfoRequest().run_in(env)] of
    [outgoing.py], not among the sources: it issues the handshake request
    through the client's [send_request] and returns the call id. *)
Definition ConnectionInfoRequest_run_in : M Z :=
  send_request connection_info_request.

End Reconnecting.

Definition disable_completely (e : option exn) : M unit :=
  run shutdown_server; _display_ws_warning.

(** Lines 171-174: the address is built once, from the server's port. *)
Definition resolve_server : M address := fun s =>
  match ensime_server (self s) with
  | Some a => Ok a s
  | None =>
      match ensime (self s) with
      | None => Raised AttributeError s
      | Some p =>
          let a := Address (http_port p) "websocket" in
          Ok a (set_ensime_server (Some a) s)
      end
  end.

(** [self.ws = websocket.create_connection(self.ensime_server, **options)] *)
Definition create_connection (a : address) : M unit := fun s =>
  let s1 := emit (Connect a) s in
  match connect_script (env s1) with
  | false :: rest => Raised WebSocketException (set_connect_script rest s1)
  | true :: rest => Ok tt (set_ws (Some (WebSocket a)) (set_connect_script rest s1))
  | [] => Ok tt (set_ws (Some (WebSocket a)) s1)
  end.

Definition handshake_timeout : Z := seconds 30.

Fixpoint connect_ensime_server (depth : nat) : M bool := fun s =>
  match depth with
  | O => Unfinished s
  | S d =>
      if running (self s) && negb (number_try_connection (self s) =? 0) then
        (do a <- resolve_server;
         run catch WebSocketException (fun e => disable_completely (Some e))
               (create_connection a);
         run modify (fun s' =>
               set_number_try_connection (number_try_connection (self s') - 1) s');
         do call_id <- ConnectionInfoRequest_run_in (connect_ensime_server d);
         get_response (KInt call_id) handshake_timeout true) s
      else
        (run disable_completely None; ret false) s
  end.

(** The state [__init__] leaves, in a given world. *)
Definition boot (sends connects : list bool) (ts : list tick) : state :=
  {| self := init;
     env := {| send_script := sends; connect_script := connects; ticks := ts;
               clock := 0; poller_alive := true; trace := []; issued := [] |} |}.

(** ** [setup] and [connect_when_ready] *)

(** [launch] is what [self.launcher.launch()] comes to: the process, or
    [None] for a [LaunchError].  The thread [setup] starts runs
    [connect_when_ready (connection_timeout, shutdown_server)]. *)
Definition initialize_ensime (launch : option process) : M bool := fun s =>
  let s' :=
    match ensime (self s), launch with
    | None, Some p => set_ensime (Some p) s
    | _, _ => s
    end in
  Ok (bool_decide (is_Some (ensime (self s')))) s'.

Definition setup (launch : option process) : M bool :=
  do up <- initialize_ensime launch;
  run modify (set_running up);
  ret up.

(** [self.ensime.is_ready()] *)
Definition is_ready : M bool := fun s =>
  match ensime (self s) with
  | None => Raised AttributeError s
  | Some p => Ok (ready_at p <=? clock (env s)) s
  end.

(** The [while] loop of [connect_when_ready]; each [time.sleep(1)] takes
    the next tick of the world. *)
Fixpoint await_ready (ts : list tick) (timeout : Z) (s : state) : outcome unit :=
  match is_ready s with
  | Ok ready _ =>
      if negb ready && (0 <? timeout) then
        match ts with
        | [] => Unfinished (set_ticks [] s)
        | t :: ts' => await_ready ts' (timeout - 1) (advance t s)
        end
      else Ok tt (set_ticks ts s)
  | Raised e _ => Raised e (set_ticks ts s)
  | Unfinished _ => Unfinished (set_ticks ts s)
  end.

Definition connect_when_ready (depth : nat) (timeout : Z) (fallback : M unit) : M unit :=
  fun s =>
    match ws (self s) with
    | None =>
        (run (fun s' => await_ready (ticks (env s')) timeout s');
         do ready <- is_ready;
         run (if ready
              then do c <- connect_ensime_server depth; modify (set_connected c)
              else ret tt);
         (fun s' => if connected (self s') then Ok tt s' else fallback s')) s
    | Some _ => Ok tt s
    end.

(** ** Sessions

    What is done with a client, one call after the other; a call left by an
    exception leaves the client as it was at that point, and the session goes
    on.  [Idle] is a stretch of time in which only the queue-poller runs. *)
Inductive op : Type :=
  | Setup (launch : option process)
  | ConnectWhenReady (timeout : Z)
  | ConnectEnsimeServer
  | SendRequest (request : json)
  | GetResponse (call_id : pykey) (timeout : Z) (should_wait : bool)
  | ShutdownServer
  | Teardown
  | Idle (t : tick).

Definition step (depth : nat) (o : op) (s : state) : state :=
  match o with
  | Setup launch => final (setup launch s)
  | ConnectWhenReady timeout => final (connect_when_ready depth timeout shutdown_server s)
  | ConnectEnsimeServer => final (connect_ensime_server depth s)
  | SendRequest request => final (send_request (connect_ensime_server depth) request s)
  | GetResponse call_id timeout should_wait => final (get_response call_id timeout should_wait s)
  | ShutdownServer => final (shutdown_server s)
  | Teardown => final (teardown s)
  | Idle t => advance t s
  end.

Definition session (depth : nat) (ops : list op) (s : state) : state :=
  fold_left (fun acc o => step depth o acc) ops s.

(** * The vocabulary of the statements *)

(** ** Tactics *)

Ltac unfold_setters :=
  unfold set_ws, set_ensime, set_ensime_server, set_call_id, set_responses,
    set_number_try_connection, set_running, set_connected, set_send_script,
    set_connect_script, set_ticks, set_clock, set_poller_alive, emit, issue in *.

Ltac simpl_state := unfold_setters; cbn [self env ws ensime ensime_server call_id
  responses number_try_connection running connected send_script connect_script
  ticks clock poller_alive trace issued] in *.

(** Case analysis along a method's run: the innermost test first. *)
Ltac step_match :=
  match goal with
  | |- context [match ?x with _ => _ end] =>
      lazymatch x with
      | context [match _ with _ => _ end] => fail
      | _ => destruct x eqn:?
      end
  end.

Ltac run_method :=
  repeat (simpl_state; cbn [final returned raised]; try step_match).

(** ** Predicates and measures *)

(** The passes a waiting caller lets go by, seen from the world's side. *)
Definition after (ts : list tick) (s : state) : state :=
  fold_left (fun acc t => advance t acc) ts s.

(** A stored value that does not end the wait: empty, or the string ["nil"]. *)
Definition is_nil (result : json) : bool :=
  negb (truthy result && negb (is_nil_string result)).

(** The handler has been given the payload, if there is one to give. *)
Definition forwarded (call_id payload : json) (s : state) : state :=
  if truthy payload then emit (Handled call_id payload) s else s.

(** An entry as the queue-poller stores it: a parsed object filed under
    its own callId, with a payload field. *)
Definition filed_under (k : pykey) (v : json) : Prop :=
  ∃ fields, v = JObj fields
    ∧ hash_key (default JNull (assoc "callId" fields)) = Some k
    ∧ is_Some (assoc "payload" fields).

(** What a pass of the queue-poller leaves alone: everything but the
    registry, the [connected] flag, the trace and its own being alive. *)
Definition poller_frame (s s' : state) : Prop :=
  ws (self s') = ws (self s)
  ∧ ensime (self s') = ensime (self s)
  ∧ ensime_server (self s') = ensime_server (self s)
  ∧ call_id (self s') = call_id (self s)
  ∧ number_try_connection (self s') = number_try_connection (self s)
  ∧ running (self s') = running (self s)
  ∧ send_script (env s') = send_script (env s)
  ∧ connect_script (env s') = connect_script (env s)
  ∧ ticks (env s') = ticks (env s)
  ∧ clock (env s') = clock (env s)
  ∧ issued (env s') = issued (env s).

(** A caller's pass leaves alone what the queue-poller leaves alone, the
    clock apart. *)
Definition pass_frame (s s' : state) : Prop :=
  ws (self s') = ws (self s)
  ∧ ensime (self s') = ensime (self s)
  ∧ ensime_server (self s') = ensime_server (self s)
  ∧ call_id (self s') = call_id (self s)
  ∧ number_try_connection (self s') = number_try_connection (self s)
  ∧ running (self s') = running (self s)
  ∧ send_script (env s') = send_script (env s)
  ∧ connect_script (env s') = connect_script (env s)
  ∧ issued (env s') = issued (env s).

(** A registry in which every entry is as the queue-poller files it. *)
Definition well_kept (m : gmap pykey json) : Prop :=
  ∀ k v, m !! k = Some v → filed_under k v.

(** A received message which, if it carries a callId, carries a payload
    too. *)
Definition carries_payload (r : recv_result) : bool :=
  match r with
  | RecvJson (JObj fields) =>
      match default JNull (assoc "callId" fields) with
      | JNull => true
      | _ => bool_decide (is_Some (assoc "payload" fields))
      end
  | _ => true
  end.

(** A pass in which every message received is such a one. *)
Definition quiet (t : tick) : Prop :=
  Forall (fun r => carries_payload r = true) (arrivals t).

(** A response for [k] is in the registry at one of the caller's polls (on
    entry, or after one of its passes) that falls before [timeout] has gone
    by since [start]. *)
Definition arrives_in_time (k : pykey) (start timeout : Z) (ts : list tick) (s : state) : Prop :=
  ∃ n, (n ≤ length ts)%nat
       ∧ is_Some (responses (self (after (take n ts) s)) !! k)
       ∧ clock (env (after (take n ts) s)) - start < timeout.

(** What the loop gets over: a transport error, or a parsed object that
    carries a hashable callId or, without a callId, a payload field. *)
Definition survivable (r : recv_result) : bool :=
  match r with
  | RecvFails => true
  | RecvMalformed => false
  | RecvJson (JObj fields) =>
      match default JNull (assoc "callId" fields) with
      | JNull => bool_decide (is_Some (assoc "payload" fields))
      | c => bool_decide (is_Some (hash_key c))
      end
  | RecvJson _ => false
  end.

(** [teardown] is no trouble to the loop: it is how the loop is stopped. *)
Definition survivable_input (i : poll_input) : bool :=
  match i with
  | Received r => survivable r
  | TornDown => true
  end.

(** The events counted below. *)
Definition is_warning (e : event) : bool :=
  match e with
  | Warning => true
  | _ => false
  end.

Definition is_connect (e : event) : bool :=
  match e with
  | Connect _ => true
  | _ => false
  end.

(** The warning dialogs shown so far. *)
Definition warnings (s : state) : nat := length (List.filter is_warning (trace (env s))).

(** The transport connections attempted so far. *)
Definition connects (s : state) : nat := length (List.filter is_connect (trace (env s))).

(** Without a websocket the queue-poller does nothing at all. *)
Definition offline_frame (s s' : state) : Prop :=
  pass_frame s s'
  ∧ connected (self s') = connected (self s)
  ∧ warnings s' = warnings s
  ∧ connects s' = connects s.

(** The disable path: [shutdown_server], then the warning dialog. *)
Definition disabled (s : state) : state :=
  emit Warning
    (emit Uncolorized
       match ensime (self s) with
       | Some _ => emit Stopped (set_connected false s)
       | None => set_connected false s
       end).

(** The handshake: the connection-info request, then the wait for its
    response. *)
Definition handshake (d : nat) : M bool :=
  do call_id <- send_request (connect_ensime_server d) connection_info_request;
  get_response (KInt call_id) (seconds 30) true.

(** The address [connect_ensime_server] connects to. *)
Definition server_address (s : state) : option address :=
  match ensime_server (self s) with
  | Some a => Some a
  | None =>
      match ensime (self s) with
      | Some p => Some (Address (http_port p) "websocket")
      | None => None
      end
  end.

(** The state in which the handshake starts: the address is kept, the
    connection has been attempted, the attempt is counted. *)
Definition attempted (a : address) (s : state) : state :=
  let s1 := emit (Connect a) (set_ensime_server (Some a) s) in
  let s2 :=
    match connect_script (env s) with
    | false :: rest => disabled (set_connect_script rest s1)
    | true :: rest => set_ws (Some (WebSocket a)) (set_connect_script rest s1)
    | [] => set_ws (Some (WebSocket a)) s1
    end in
  set_number_try_connection (number_try_connection (self s) - 1) s2.

(** What decides the ids: the websocket, the counter, the attempts left and
    the ids returned so far. *)
Definition ids_frame (s s' : state) : Prop :=
  ws (self s') = ws (self s)
  ∧ call_id (self s') = call_id (self s)
  ∧ number_try_connection (self s') = number_try_connection (self s)
  ∧ issued (env s') = issued (env s).

(** The invariant of a session: a websocket exists only once the one
    attempt is spent, and the ids returned so far are 1, 2, ... up to the
    counter. *)
Definition session_inv (s : state) : Prop :=
  (number_try_connection (self s) = 0
   ∨ number_try_connection (self s) = 1 ∧ ws (self s) = None)
  ∧ 1 ≤ call_id (self s)
  ∧ issued (env s) = seqZ 1 (call_id (self s) - 1).

(** The attempts made and the attempts left add up to the one attempt a
    client starts with. *)
Definition one_attempt (s : state) : Prop :=
  session_inv s ∧ Z.of_nat (connects s) + number_try_connection (self s) = 1.

(** No message among these events. *)
Definition silent_events (evs : list event) : Prop :=
  Forall (fun e => ∀ m, e ≠ Transmit m) evs.

(** ** Clients and worlds used as examples *)




(** A client with a websocket, not yet past its handshake. *)
Definition online : state :=
  set_ws (Some (WebSocket (Address 9001 "websocket"))) (boot [] [] []).

(** Scenario A of the spec: the response to call 1. *)
Definition answer_1 : list (string * json) :=
  [("callId", JInt 1); ("payload", JObj [("ok", JBool true)])].

(** Scenario B of the spec: a request whose response never comes. *)
Definition silent : state := boot [] [] (repeat (Tick [] [] 250) 10).

(** A world in which the response to call 1 arrives within the first
    sleep, and has no payload field. *)
Definition bare_answer : state :=
  set_ws (Some (WebSocket (Address 9001 "websocket")))
    (boot [] [] [Tick [RecvJson (JObj [("callId", JInt 1)])] [] 250; Tick [] [] 250]).

(** A client whose server process is up and ready. *)
Definition launched (sends connects : list bool) (ts : list tick) : state :=
  set_ensime (Some (Process 9001 0)) (boot sends connects ts).


(** A world in which the transport refuses the connection and nothing
    is heard for thirty seconds. *)
Definition refused_connection : state := launched [] [false] (repeat (Tick [] [] 250) 120).

(** A session past its handshake: a websocket, no attempt left, and a
    transport that fails the next send and carries the one after. *)
Definition flaky : state :=
  set_number_try_connection 0
    (set_ws (Some (WebSocket (Address 9001 "websocket"))) (launched [false; true] [] [])).

(** A message to send. *)
Definition ping : json := JObj [("callId", JInt 2); ("req", JStr "ping")].

(** A session: the server comes up, the handshake goes through, two
    requests follow, the first of them on a transport that fails once. *)
Definition two_requests : list op :=
  [Setup (Some (Process 9001 0)); ConnectEnsimeServer;
   SendRequest (JStr "a"); GetResponse (KInt 2) (seconds 1) true; SendRequest (JStr "b")].

(** * Properties *)

(** ** [get_response] *)

Lemma after_app (pre post : list tick) (s : state) :
  after (pre ++ post) s = after post (after pre s).
Proof. apply fold_left_app. Qed.

Lemma get_response_no_wait (call_id : pykey) (timeout : Z) (should_wait : bool) (s : state) :
  should_wait = false ∨ is_Some (responses (self s) !! call_id) →
  get_response call_id timeout should_wait s = Ok (0 <? timeout) s.
Proof.
  intros H. unfold get_response.
  assert (should_wait && negb (bool_decide (is_Some (responses (self s) !! call_id))) = false)
    as ->.
  { destruct H as [-> | H]; [reflexivity |].
    rewrite bool_decide_eq_true_2 by exact H. apply andb_false_r. }
  f_equal. rewrite Z.sub_diag. destruct (Z.ltb_spec 0 timeout); destruct (Z.geb_spec 0 timeout); simpl; (lia || reflexivity).
Qed.

(** C10, as amended: with [should_wait] false, or with a response for the
    id already in the registry when [get_response] is entered, the call
    returns at once and leaves everything as it was: no payload is forwarded
    to the handler, the registry entry is not deleted, no time passes.  What
    it returns is decided by the timeout alone: true when the timeout is
    positive, false when it is not.  With [should_wait] false this is so
    even when no response for the id exists. *)
Theorem get_response_returns_at_once (call_id : pykey) (timeout : Z)
    (should_wait : bool) (s : state) :
  should_wait = false ∨ is_Some (responses (self s) !! call_id) →
  get_response call_id timeout should_wait s = Ok (0 <? timeout) s
  ∧ (0 < timeout → get_response call_id timeout should_wait s = Ok true s)
  ∧ (timeout ≤ 0 → get_response call_id timeout should_wait s = Ok false s).
Proof.
  intros H. rewrite get_response_no_wait by exact H.
  split; [reflexivity |]. split.
  - intros Hpos. f_equal. apply Z.ltb_lt. exact Hpos.
  - intros Hneg. f_equal. apply Z.ltb_ge. exact Hneg.
Qed.

Lemma get_response_returns_at_once_witness :
  get_response (KInt 7) (seconds 10) false (boot [] [] []) = Ok true (boot [] [] [])
  ∧ get_response (KInt 7) (seconds 10) true
      (set_responses {[ KInt 7 := JStr "nil" ]} (boot [] [] []))
    = Ok true (set_responses {[ KInt 7 := JStr "nil" ]} (boot [] [] [])).
Proof.
  split.
  - apply (get_response_returns_at_once (KInt 7) (seconds 10) false (boot [] [] []));
      [left; reflexivity | reflexivity].
  - apply (get_response_returns_at_once (KInt 7) (seconds 10) true
             (set_responses {[ KInt 7 := JStr "nil" ]} (boot [] [] [])));
      [right; exists (JStr "nil"); reflexivity | reflexivity].
Defined.

(** C10, as stated, fails: with a timeout of zero the call returns false,
    with [should_wait] false and no response for the id, and also with the
    response already in the registry; the test after the loop
    ([(now - start) >= timeout], lines 246-248) decides. *)
Lemma get_response_zero_timeout_returns_false :
  get_response (KInt 7) 0 false (boot [] [] []) = Ok false (boot [] [] [])
  ∧ is_Some (responses (self (set_responses {[ KInt 7 := JObj answer_1 ]} (boot [] [] [])))
               !! KInt 7)
  ∧ get_response (KInt 7) 0 true (set_responses {[ KInt 7 := JObj answer_1 ]} (boot [] [] []))
    = Ok false (set_responses {[ KInt 7 := JObj answer_1 ]} (boot [] [] [])).
Proof.
  split; [reflexivity |]. split; [eexists; vm_compute; reflexivity |].
  unfold get_response.
  rewrite bool_decide_eq_true_2 by (eexists; vm_compute; reflexivity). reflexivity.
Qed.

(** One pass of the loop on an entry that ends the wait. *)
Lemma get_response_loop_found (ts : list tick) (k : pykey) (start now timeout : Z)
    (s : state) (result : json) :
  now - start < timeout →
  responses (self s) !! k = Some result →
  is_nil result = false →
  get_response_loop ts k start now timeout s =
    match unqueue result (set_ticks ts s) with
    | Ok _ s' => Ok (0 <? timeout) s'
    | Raised e s' => Raised e s'
    | Unfinished s' => Unfinished s'
    end.
Proof.
  intros Hwin Hk Hnil. unfold is_nil in Hnil. apply negb_false_iff in Hnil.
  assert ((now - start <? timeout) = true) as Hlt by (apply Z.ltb_lt; exact Hwin).
  assert (∀ t : Z, negb (t - t >=? timeout) = (0 <? timeout)) as Hret.
  { intros t. rewrite Z.sub_diag.
    destruct (Z.ltb_spec 0 timeout); destruct (Z.geb_spec 0 timeout); simpl; (lia || reflexivity). }
  destruct ts; simpl; rewrite Hlt, Hk, Hnil;
    (destruct (unqueue result _); [rewrite Hret |..]; reflexivity).
Qed.

(** One pass of the loop on an entry that does not end the wait, or on no
    entry. *)
Lemma get_response_loop_nil (t : tick) (ts : list tick) (k : pykey)
    (start now timeout : Z) (s : state) (result : json) :
  now - start < timeout →
  responses (self s) !! k = Some result →
  is_nil result = true →
  get_response_loop (t :: ts) k start now timeout s =
    get_response_loop ts k start now timeout (advance t s).
Proof.
  intros Hwin Hk Hnil. unfold is_nil in Hnil. apply negb_true_iff in Hnil.
  simpl. rewrite (proj2 (Z.ltb_lt _ _) Hwin), Hk, Hnil. reflexivity.
Qed.

Lemma get_response_loop_absent (t : tick) (ts : list tick) (k : pykey)
    (start now timeout : Z) (s : state) :
  now - start < timeout →
  responses (self s) !! k = None →
  get_response_loop (t :: ts) k start now timeout s =
    get_response_loop ts k start (clock (env (advance t s))) timeout (advance t s).
Proof.
  intros Hwin Hk. simpl. rewrite (proj2 (Z.ltb_lt _ _) Hwin), Hk. reflexivity.
Qed.

Lemma get_response_loop_expired (ts : list tick) (k : pykey)
    (start now timeout : Z) (s : state) :
  timeout ≤ now - start →
  get_response_loop ts k start now timeout s = Ok false (set_ticks ts s).
Proof.
  intros Hwin. destruct ts; simpl; rewrite (proj2 (Z.ltb_ge _ _) Hwin); reflexivity.
Qed.


Lemma unqueue_payload (fields : list (string * json)) (payload : json) (s : state) :
  assoc "payload" fields = Some payload →
  unqueue (JObj fields) s =
    del_response (default JNull (assoc "callId" fields))
      (forwarded (default JNull (assoc "callId" fields)) payload s).
Proof.
  intros H. unfold unqueue, bind, forwarded. simpl. rewrite H. simpl.
  destruct (truthy payload); reflexivity.
Qed.

Lemma responses_forwarded (call_id payload : json) (s : state) :
  responses (self (forwarded call_id payload s)) = responses (self s).
Proof. unfold forwarded. destruct (truthy payload); reflexivity. Qed.

Lemma is_nil_object (fields : list (string * json)) :
  fields ≠ [] → is_nil (JObj fields) = false.
Proof. intros H. destruct fields; [congruence | reflexivity]. Qed.




Lemma get_response_loop_consumes (ts : list tick) (k : pykey) (start now timeout : Z)
    (s : state) (v : json) :
  now - start < timeout →
  responses (self s) !! k = Some v →
  filed_under k v →
  ∃ s', get_response_loop ts k start now timeout s = Ok (0 <? timeout) s'
        ∧ responses (self s') = delete k (responses (self s)).
Proof.
  intros Hwin Hk (fields & -> & Hhash & [payload Hp]).
  assert (fields ≠ []) as Hne by (destruct fields; [discriminate | congruence]).
  rewrite (get_response_loop_found ts k start now timeout s (JObj fields) Hwin Hk
             (is_nil_object fields Hne)).
  rewrite (unqueue_payload fields payload _ Hp).
  unfold del_response. rewrite Hhash, responses_forwarded. simpl_state.
  rewrite Hk. eexists. split; [reflexivity |]. reflexivity.
Qed.




(** ** The queue-poller, seen from a caller *)

Lemma poller_frame_refl (s : state) : poller_frame s s.
Proof. repeat split. Qed.

Lemma poller_frame_trans (s1 s2 s3 : state) :
  poller_frame s1 s2 → poller_frame s2 s3 → poller_frame s1 s3.
Proof.
  unfold poller_frame. intros H12 H23.
  destruct H12 as (?&?&?&?&?&?&?&?&?&?&?), H23 as (?&?&?&?&?&?&?&?&?&?&?).
  repeat split; congruence.
Qed.

Lemma shutdown_server_frame (s : state) : poller_frame s (final (shutdown_server s)).
Proof. unfold poller_frame, shutdown_server. run_method; repeat split; congruence. Qed.

Lemma queue_poll_body_frame (r : recv_result) (s : state) :
  poller_frame s (final (queue_poll_body r s)).
Proof.
  unfold poller_frame, queue_poll_body, catch, bind, receive, lift, raise, ret,
    log_and_close, bind, shutdown_server, _display_ws_warning, handle_incoming_response,
    modify, store_response, py_get, py_index.
  run_method; repeat split; congruence.
Qed.

Lemma poller_turn_frame (r : recv_result) (s : state) : poller_frame s (poller_turn r s).
Proof.
  unfold poller_turn.
  destruct (poller_alive (env s)); [| apply poller_frame_refl].
  destruct (running (self s)); [| repeat split].
  destruct (ws (self s)); [| apply poller_frame_refl].
  pose proof (queue_poll_body_frame r s) as H.
  destruct (queue_poll_body r s); simpl in H; try exact H;
    (eapply poller_frame_trans; [exact H | repeat split]).
Qed.

Lemma poller_turns_frame (rs : list recv_result) (s : state) :
  poller_frame s (fold_left (fun acc r => poller_turn r acc) rs s).
Proof.
  revert s. induction rs as [| r rs IH]; intros s; simpl.
  - apply poller_frame_refl.
  - eapply poller_frame_trans; [apply poller_turn_frame | apply IH].
Qed.

Lemma clock_advance (t : tick) (s : state) :
  clock (env (advance t s)) = clock (env s) + elapsed t.
Proof.
  unfold advance. simpl_state.
  pose proof (poller_turns_frame (arrivals t) s) as (?&?&?&?&?&?&?&?&?&Hc&?).
  rewrite Hc. reflexivity.
Qed.

Lemma pass_frame_refl (s : state) : pass_frame s s.
Proof. repeat split. Qed.

Lemma pass_frame_trans (s1 s2 s3 : state) :
  pass_frame s1 s2 → pass_frame s2 s3 → pass_frame s1 s3.
Proof.
  unfold pass_frame. intros H12 H23.
  destruct H12 as (?&?&?&?&?&?&?&?&?), H23 as (?&?&?&?&?&?&?&?&?).
  repeat split; congruence.
Qed.

Lemma advance_frame (t : tick) (s : state) : pass_frame s (advance t s).
Proof.
  unfold advance.
  pose proof (poller_turns_frame (arrivals t) s) as (?&?&?&?&?&?&?&?&?&?&?).
  repeat split; simpl_state; assumption.
Qed.

Lemma after_frame (ts : list tick) (s : state) : pass_frame s (after ts s).
Proof.
  revert s. induction ts as [| t ts IH]; intros s; simpl.
  - apply pass_frame_refl.
  - eapply pass_frame_trans; [apply advance_frame | apply IH].
Qed.

(** What a pass of the queue-poller does to the registry: nothing, or it
    files the parsed object it received under the callId the object
    carries. *)
Lemma queue_poll_body_responses (r : recv_result) (s : state) :
  responses (self (final (queue_poll_body r s))) = responses (self s)
  ∨ ∃ fields k,
      r = RecvJson (JObj fields)
      ∧ hash_key (default JNull (assoc "callId" fields)) = Some k
      ∧ k ≠ KNone
      ∧ responses (self (final (queue_poll_body r s)))
        = <[k := JObj fields]> (responses (self s)).
Proof.
  unfold queue_poll_body, catch, bind, receive, lift, raise, ret,
    log_and_close, bind, shutdown_server, _display_ws_warning, handle_incoming_response,
    modify, store_response, py_get, py_index.
  run_method; try (left; reflexivity);
    right;
    match goal with
    | H : default _ _ = ?c, H' : hash_key ?c = Some ?p |- _ =>
        eexists _, p; (split; [reflexivity |]); rewrite H;
        (split; [exact H' |]); simpl in H'; split; congruence
    end.
Qed.

Lemma poller_turn_responses (r : recv_result) (s : state) :
  responses (self (poller_turn r s)) = responses (self s)
  ∨ ∃ fields k,
      r = RecvJson (JObj fields)
      ∧ hash_key (default JNull (assoc "callId" fields)) = Some k
      ∧ k ≠ KNone
      ∧ responses (self (poller_turn r s)) = <[k := JObj fields]> (responses (self s)).
Proof.
  unfold poller_turn.
  destruct (poller_alive (env s)); [| left; reflexivity].
  destruct (running (self s)); [| left; reflexivity].
  destruct (ws (self s)); [| left; reflexivity].
  pose proof (queue_poll_body_responses r s) as H.
  destruct (queue_poll_body r s); exact H.
Qed.

(** The queue-poller stores nothing under [None]. *)
Lemma poller_turn_none_key (r : recv_result) (s : state) :
  responses (self s) !! KNone = None →
  responses (self (poller_turn r s)) !! KNone = None.
Proof.
  intros Hnone.
  destruct (poller_turn_responses r s) as [-> | (fields & k & _ & _ & Hk & ->)].
  - exact Hnone.
  - rewrite lookup_insert_ne by exact Hk. exact Hnone.
Qed.

Lemma well_kept_empty : well_kept ∅.
Proof. intros k v H. rewrite lookup_empty in H. discriminate. Qed.

Lemma poller_turn_well_kept (r : recv_result) (s : state) :
  carries_payload r = true →
  well_kept (responses (self s)) →
  well_kept (responses (self (poller_turn r s))).
Proof.
  intros Hr Hs.
  destruct (poller_turn_responses r s) as [-> | (fields & k & -> & Hhash & Hk & ->)].
  - exact Hs.
  - intros k' v Hv. destruct (decide (k = k')) as [<- | Hne].
    + rewrite lookup_insert_eq in Hv. injection Hv as <-.
      exists fields. split; [reflexivity |]. split; [exact Hhash |].
      simpl in Hr. destruct (default JNull (assoc "callId" fields));
        try (apply bool_decide_eq_true in Hr; exact Hr).
      simpl in Hhash. congruence.
    + rewrite lookup_insert_ne in Hv by exact Hne. apply Hs. exact Hv.
Qed.

Lemma well_kept_taken (ks : list pykey) (m : gmap pykey json) :
  well_kept m → well_kept (fold_left (fun acc k => delete k acc) ks m).
Proof.
  revert m. induction ks as [| k ks IH]; intros m Hm; simpl; [exact Hm |].
  apply IH. intros k' v Hv. apply lookup_delete_Some in Hv as [_ Hv]. apply Hm. exact Hv.
Qed.

Lemma advance_well_kept (t : tick) (s : state) :
  quiet t →
  well_kept (responses (self s)) →
  well_kept (responses (self (advance t s))).
Proof.
  unfold advance, quiet. simpl_state. generalize (taken t). intros ks.
  generalize (arrivals t). intros rs Hrs. revert s.
  induction Hrs as [| r rs Hr _ IH]; intros s Hs; simpl.
  - apply well_kept_taken. exact Hs.
  - apply IH. apply poller_turn_well_kept; assumption.
Qed.



(** ** The timeout of [get_response] *)

Lemma after_well_kept (ts : list tick) (s : state) :
  Forall quiet ts →
  well_kept (responses (self s)) →
  well_kept (responses (self (after ts s))).
Proof.
  intros Hts. revert s. induction Hts as [| t ts Ht _ IH]; intros s Hs; simpl.
  - exact Hs.
  - apply IH. apply advance_well_kept; assumption.
Qed.

Lemma clock_after_le (ts : list tick) (s : state) :
  Forall (fun t => 0 ≤ elapsed t) ts →
  clock (env s) ≤ clock (env (after ts s)).
Proof.
  intros Hts. revert s. induction Hts as [| t ts Ht _ IH]; intros s; simpl.
  - lia.
  - specialize (IH (advance t s)). rewrite clock_advance in IH. lia.
Qed.

Lemma get_response_loop_arrival (ts : list tick) (k : pykey) (start timeout : Z) (s : state) :
  0 < timeout →
  well_kept (responses (self s)) →
  Forall quiet ts →
  Forall (fun t => 0 ≤ elapsed t) ts →
  timeout ≤ clock (env (after ts s)) - start →
  ∃ b s', get_response_loop ts k start (clock (env s)) timeout s = Ok b s'
          ∧ (b = true ↔ arrives_in_time k start timeout ts s).
Proof.
  intros Hpos Hkept Hquiet Hmono. revert s Hkept.
  induction ts as [| t ts IH]; intros s Hkept Hcover.
  - simpl in Hcover. rewrite get_response_loop_expired by exact Hcover.
    eexists _, _. split; [reflexivity |]. split; [discriminate |].
    intros (n & Hn & _ & Hlt). destruct n; simpl in *; lia.
  - apply Forall_cons in Hquiet as [Hq Hquiet]. apply Forall_cons in Hmono as [Hm Hmono].
    destruct (Z_lt_le_dec (clock (env s) - start) timeout) as [Hwin | Hout].
    + destruct (responses (self s) !! k) as [v |] eqn:Hk.
      * destruct (get_response_loop_consumes (t :: ts) k start (clock (env s)) timeout s v
                    Hwin Hk (Hkept k v Hk)) as (s' & Hrun & _).
        exists (0 <? timeout), s'. split; [exact Hrun |].
        split; [| intros _; apply Z.ltb_lt; exact Hpos].
        intros _. exists 0%nat. simpl. split; [lia |]. split; [| exact Hwin].
        rewrite Hk. eexists. reflexivity.
      * rewrite get_response_loop_absent by assumption.
        destruct (IH Hquiet Hmono (advance t s) (advance_well_kept t s Hq Hkept) Hcover)
          as (b & s' & Hrun & Hb).
        exists b, s'. split; [exact Hrun |]. rewrite Hb. split.
        -- intros (n & Hn & Hin & Hlt). exists (S n). simpl. split; [lia |]. split; assumption.
        -- intros (n & Hn & Hin & Hlt). destruct n as [| n].
           ++ simpl in Hin. rewrite Hk in Hin. destruct Hin; discriminate.
           ++ exists n. simpl in Hn, Hin, Hlt. split; [lia |]. split; assumption.
    + rewrite get_response_loop_expired by exact Hout.
      eexists _, _. split; [reflexivity |]. split; [discriminate |].
      intros (n & Hn & _ & Hlt).
      pose proof (clock_after_le (take n (t :: ts)) s) as Hle.
      assert (Forall (fun t0 => 0 ≤ elapsed t0) (take n (t :: ts))) as Htake.
      { apply Forall_take. constructor; assumption. }
      specialize (Hle Htake). lia.
Qed.

Lemma get_response_loop_timeout (ts : list tick) (k : pykey) (start timeout jitter : Z)
    (s : state) :
  (∀ n, responses (self (after (take n ts) s)) !! k = None) →
  Forall (fun t => poll_interval ≤ elapsed t ≤ poll_interval + jitter) ts →
  clock (env s) - start < timeout + poll_interval + jitter →
  timeout ≤ clock (env (after ts s)) - start →
  ∃ n, (n ≤ length ts)%nat
       ∧ get_response_loop ts k start (clock (env s)) timeout s
         = Ok false (set_ticks (drop n ts) (after (take n ts) s))
       ∧ timeout ≤ clock (env (after (take n ts) s)) - start < timeout + poll_interval + jitter.
Proof.
  intros Habsent Hbounds. revert s Habsent.
  induction Hbounds as [| t ts Ht _ IH]; intros s Habsent Hsofar Hcover.
  - simpl in Hcover. exists 0%nat. split; [simpl; lia |].
    rewrite get_response_loop_expired by exact Hcover. split; [reflexivity |]. simpl. lia.
  - destruct (Z_lt_le_dec (clock (env s) - start) timeout) as [Hwin | Hout].
    + rewrite get_response_loop_absent; [| exact Hwin | exact (Habsent 0%nat)].
      destruct (IH (advance t s)) as (n & Hn & Hrun & Hlt).
      * intros n. exact (Habsent (S n)).
      * rewrite clock_advance. lia.
      * exact Hcover.
      * exists (S n). split; [simpl; lia |]. split; [exact Hrun | exact Hlt].
    + exists 0%nat. split; [simpl; lia |].
      rewrite get_response_loop_expired by exact Hout. split; [reflexivity |]. simpl. lia.
Qed.

(** C1, as amended.  Take [should_wait] true, let every entry of the
    registry be as the queue-poller files it (an object under its own
    callId) and let it, and every message with a callId that the queue-poller
    receives while the caller waits, carry a payload field.  Then, for every call id
    and every positive timeout, [get_response] returns, and it returns true
    iff a response for that id is in the registry at one of the caller's
    polls (on entry, or after one of its quarter-second sleeps) that falls
    before the timeout has gone by.  When no entry for the id is ever in the
    registry, the call returns false at the first poll at or after the
    timeout, so after the timeout and less than the timeout plus one sleep
    (each sleep lasting [poll_interval] and at most [jitter] more), and the
    state it returns is the one the world alone has produced by then: the
    caller has written nothing to the registry. *)
Theorem get_response_true_iff_arrived (k : pykey) (timeout jitter : Z) (s : state) :
  (0 < timeout →
   well_kept (responses (self s)) →
   Forall quiet (ticks (env s)) →
   Forall (fun t => 0 ≤ elapsed t) (ticks (env s)) →
   timeout ≤ clock (env (after (ticks (env s)) s)) - clock (env s) →
   ∃ b s', get_response k timeout true s = Ok b s'
           ∧ (b = true ↔ arrives_in_time k (clock (env s)) timeout (ticks (env s)) s))
  ∧ (0 ≤ timeout →
     0 ≤ jitter →
     (∀ n, responses (self (after (take n (ticks (env s))) s)) !! k = None) →
     Forall (fun t => poll_interval ≤ elapsed t ≤ poll_interval + jitter) (ticks (env s)) →
     timeout ≤ clock (env (after (ticks (env s)) s)) - clock (env s) →
     ∃ n, (n ≤ length (ticks (env s)))%nat
          ∧ get_response k timeout true s
            = Ok false (set_ticks (drop n (ticks (env s))) (after (take n (ticks (env s))) s))
          ∧ timeout ≤ clock (env (after (take n (ticks (env s))) s)) - clock (env s)
            < timeout + poll_interval + jitter).
Proof.
  split.
  - intros Hpos Hkept Hquiet Hmono Hcover.
    destruct (responses (self s) !! k) as [v |] eqn:Hk.
    + rewrite get_response_no_wait by (right; rewrite Hk; eexists; reflexivity).
      exists (0 <? timeout), s. split; [reflexivity |].
      split; [| intros _; apply Z.ltb_lt; exact Hpos].
      intros _. exists 0%nat. simpl. split; [lia |]. rewrite Hk. split; [eexists; reflexivity | lia].
    + unfold get_response. rewrite Hk.
      rewrite bool_decide_eq_false_2 by (intros [? ?]; discriminate). simpl.
      apply get_response_loop_arrival; assumption.
  - intros Hpos Hjit Habsent Hbounds Hcover.
    pose proof (Habsent 0%nat) as Hk. simpl in Hk.
    unfold get_response. rewrite Hk.
    rewrite bool_decide_eq_false_2 by (intros [? ?]; discriminate). simpl.
    apply (get_response_loop_timeout (ticks (env s)) k (clock (env s)) timeout jitter s);
      try assumption.
    unfold poll_interval. lia.
Qed.

Lemma get_response_true_iff_arrived_witness :
  (∃ b s', get_response (KInt 2) (seconds 2) true silent = Ok b s'
           ∧ (b = true ↔ arrives_in_time (KInt 2) 0 (seconds 2) (repeat (Tick [] [] 250) 10) silent))
  ∧ (∃ n, (n ≤ 10)%nat
          ∧ get_response (KInt 2) (seconds 2) true silent
            = Ok false (set_ticks (drop n (repeat (Tick [] [] 250) 10))
                          (after (take n (repeat (Tick [] [] 250) 10)) silent))
          ∧ seconds 2 ≤ clock (env (after (take n (repeat (Tick [] [] 250) 10)) silent)) - 0
            < seconds 2 + poll_interval + 0).
Proof.
  pose proof (get_response_true_iff_arrived (KInt 2) (seconds 2) 0 silent) as [H1 H2].
  split.
  - apply H1.
    + reflexivity.
    + apply well_kept_empty.
    + simpl. repeat constructor.
    + simpl. repeat constructor; discriminate.
    + vm_compute. discriminate.
  - apply H2.
    + discriminate.
    + discriminate.
    + intros n. do 11 (destruct n as [| n]; [vm_compute; reflexivity |]).
      vm_compute. reflexivity.
    + simpl. repeat constructor; discriminate.
    + vm_compute. discriminate.
Defined.

(** C1, as stated, fails: a response that is present and not nil, but has
    no payload field, arrives a quarter of a second into a five-second wait;
    [get_response] does not return true, it is left by a [KeyError]. *)
Lemma get_response_bare_answer_raises :
  responses (self (after (take 1 (ticks (env bare_answer))) bare_answer)) !! KInt 1
    = Some (JObj [("callId", JInt 1)])
  ∧ is_nil (JObj [("callId", JInt 1)]) = false
  ∧ clock (env (after (take 1 (ticks (env bare_answer))) bare_answer)) - clock (env bare_answer)
    = 250
  ∧ returned (get_response (KInt 1) (seconds 5) true bare_answer) = None
  ∧ raised (get_response (KInt 1) (seconds 5) true bare_answer) = Some KeyError.
Proof. vm_compute. repeat split; reflexivity. Qed.

(** ** [queue_poll] *)

Lemma queue_poll_body_survives (r : recv_result) (s : state) :
  survivable r = true →
  ∃ s', queue_poll_body r s = Ok tt s'.
Proof.
  intros Hr. unfold queue_poll_body, catch, bind.
  destruct r as [| | j]; simpl in Hr; try discriminate.
  - simpl. unfold log_and_close, bind, shutdown_server, _display_ws_warning, modify.
    destruct (connected (self s)); eexists; reflexivity.
  - destruct j as [| | | | | fields]; try discriminate.
    simpl. destruct (default JNull (assoc "callId" fields)) as [| b | n | str | l | l] eqn:Hc;
      simpl in Hr; try discriminate.
    + apply bool_decide_eq_true in Hr. destruct Hr as [x Hx].
      unfold py_index. rewrite Hx. simpl.
      unfold handle_incoming_response, modify, ret.
      destruct (truthy x); eexists; reflexivity.
    + unfold store_response. simpl. eexists; reflexivity.
    + unfold store_response. simpl. eexists; reflexivity.
    + unfold store_response. simpl. eexists; reflexivity.
Qed.

Lemma queue_poll_stopped (inputs : list poll_input) (s : state) :
  running (self s) = false → queue_poll inputs s = Ok tt s.
Proof. intros H. destruct inputs; simpl; rewrite H; reflexivity. Qed.

Lemma queue_poll_goes_on (pre post : list poll_input) (s : state) :
  Forall (fun i => survivable_input i = true) pre →
  TornDown ∉ pre →
  running (self s) = true →
  ∃ s', queue_poll (pre ++ post) s = queue_poll post s' ∧ running (self s') = true.
Proof.
  intros Hpre. revert s. induction Hpre as [| i pre Hi _ IH]; intros s Hno Hrun.
  - exists s. split; [reflexivity | exact Hrun].
  - apply not_elem_of_cons in Hno as [Hne Hno].
    destruct i as [r |]; [| congruence].
    simpl. rewrite Hrun. destruct (ws (self s)) as [w |] eqn:Hws.
    + destruct (queue_poll_body_survives r s Hi) as (s' & Hs').
      pose proof (queue_poll_body_frame r s) as (_&_&_&_&_&Hr&_).
      rewrite Hs' in Hr |- *. simpl in Hr.
      apply IH; [exact Hno | congruence].
    + apply IH; assumption.
Qed.

(** C6, as amended: the receiver loop does not end on a transport error of
    [recv], nor on a message that parses to an object with a hashable callId
    or, without a callId, with a payload field.  Whatever such outcomes it
    meets, it goes on to the next one, is never left by an exception, and
    ends only once [running] is false (which [teardown] makes it). *)
Theorem queue_poll_only_stops_when_not_running (pre post : list poll_input) (s : state) :
  Forall (fun i => survivable_input i = true) pre →
  (running (self s) = true → TornDown ∉ pre →
   ∃ s', queue_poll (pre ++ post) s = queue_poll post s' ∧ running (self s') = true)
  ∧ raised (queue_poll pre s) = None
  ∧ (is_Some (returned (queue_poll pre s)) ↔ running (self s) = false ∨ TornDown ∈ pre).
Proof.
  intros Hpre. split; [intros; apply queue_poll_goes_on; assumption |].
  revert s. induction Hpre as [| i pre Hi _ IH]; intros s.
  - simpl. destruct (running (self s)) eqn:Hrun; simpl.
    + split; [reflexivity |]. split.
      * intros [? H]; discriminate H.
      * intros [H | H]; [congruence | inversion H].
    + split; [reflexivity |]. split; [intros _; left; reflexivity | intros _; eexists; reflexivity].
  - destruct (running (self s)) eqn:Hrun.
    + destruct i as [r |]; simpl; rewrite Hrun.
      * assert (∀ s', running (self s') = true →
                  raised (queue_poll pre s') = None
                  ∧ (is_Some (returned (queue_poll pre s')) ↔ true = false ∨ TornDown ∈ Received r :: pre))
          as Hnext.
        { intros s' Hs'. destruct (IH s') as [Hraised Hret]. split; [exact Hraised |].
          rewrite Hret, Hs', elem_of_cons. split.
          - intros [H | H]; [discriminate H | right; right; exact H].
          - intros [H | [H | H]]; [discriminate H | discriminate H | right; exact H]. }
        destruct (ws (self s)) as [w |] eqn:Hws; [| apply Hnext; exact Hrun].
        destruct (queue_poll_body_survives r s Hi) as (s' & Hs').
        pose proof (queue_poll_body_frame r s) as (_&_&_&_&_&Hr&_).
        rewrite Hs' in Hr |- *. simpl in Hr. apply Hnext. congruence.
      * rewrite queue_poll_stopped by (destruct (ensime (self s)); reflexivity). simpl.
        split; [reflexivity |]. split; [intros _; right; left | intros _; eexists; reflexivity].
    + rewrite queue_poll_stopped by exact Hrun. simpl.
      split; [reflexivity |]. split; [intros _; left; reflexivity | intros _; eexists; reflexivity].
Qed.

Lemma queue_poll_only_stops_when_not_running_witness :
  (∃ s', queue_poll ([Received RecvFails; Received (RecvJson (JObj answer_1))] ++ [TornDown])
           online
         = queue_poll [TornDown] s' ∧ running (self s') = true)
  ∧ raised (queue_poll [Received RecvFails; Received (RecvJson (JObj answer_1))] online) = None
  ∧ (is_Some (returned (queue_poll [Received RecvFails; Received (RecvJson (JObj answer_1))]
                         online))
     ↔ running (self online) = false
       ∨ TornDown ∈ [Received RecvFails; Received (RecvJson (JObj answer_1))]).
Proof.
  pose proof (queue_poll_only_stops_when_not_running
                [Received RecvFails; Received (RecvJson (JObj answer_1))] [TornDown] online)
    as H.
  destruct H as (H1 & H2 & H3).
  - repeat constructor.
  - split; [| split; [exact H2 | exact H3]].
    apply H1; [reflexivity |].
    intros Hin. repeat (apply elem_of_cons in Hin as [Hin | Hin]; [discriminate Hin |]).
    inversion Hin.
Defined.

(** C6, as stated, fails: a message that does not parse, or one that lacks
    both callId and payload, ends the loop by an uncaught exception while
    [running] is still true; the message that follows is never stored. *)
Lemma queue_poll_ended_by_bad_message :
  raised (queue_poll [Received RecvMalformed; Received (RecvJson (JObj answer_1))] online)
    = Some ValueError
  ∧ running (self (final
      (queue_poll [Received RecvMalformed; Received (RecvJson (JObj answer_1))] online)))
    = true
  ∧ responses (self (final
      (queue_poll [Received RecvMalformed; Received (RecvJson (JObj answer_1))] online)))
      !! KInt 1 = None
  ∧ raised (queue_poll [Received (RecvJson (JObj [("typehint", JStr "Note")]));
                        Received (RecvJson (JObj answer_1))] online)
    = Some KeyError.
Proof. vm_compute. repeat split; reflexivity. Qed.

(** ** What [get_response] leaves alone *)

Lemma unqueue_frame (result : json) (s : state) :
  poller_frame s (final (unqueue result s)).
Proof.
  unfold poller_frame, unqueue, bind, lift, raise, ret, py_get, py_index,
    handle_incoming_response, modify, del_response.
  run_method; repeat split; congruence.
Qed.

Lemma set_ticks_frame (ts : list tick) (s : state) : pass_frame s (set_ticks ts s).
Proof. repeat split. Qed.

Lemma poller_frame_pass (s s' : state) : poller_frame s s' → pass_frame s s'.
Proof. intros (?&?&?&?&?&?&?&?&?&?&?). repeat split; assumption. Qed.

Lemma get_response_loop_frame (ts : list tick) (k : pykey) (start now timeout : Z)
    (s : state) :
  pass_frame s (final (get_response_loop ts k start now timeout s)).
Proof.
  revert s now. induction ts as [| t ts IH]; intros s now.
  - simpl. destruct (now - start <? timeout); [| apply set_ticks_frame].
    destruct (responses (self s) !! k) as [v |]; [| apply set_ticks_frame].
    destruct (truthy v && negb (is_nil_string v)); [| apply set_ticks_frame].
    pose proof (unqueue_frame v (set_ticks [] s)) as H. apply poller_frame_pass in H.
    destruct (unqueue v (set_ticks [] s)); exact H.
  - simpl. destruct (now - start <? timeout); [| apply set_ticks_frame].
    destruct (responses (self s) !! k) as [v |].
    + destruct (truthy v && negb (is_nil_string v)).
      * pose proof (unqueue_frame v (set_ticks (t :: ts) s)) as H.
        apply poller_frame_pass in H.
        destruct (unqueue v (set_ticks (t :: ts) s)); exact H.
      * eapply pass_frame_trans; [apply advance_frame | apply IH].
    + eapply pass_frame_trans; [apply advance_frame | apply IH].
Qed.

Lemma get_response_frame (k : pykey) (timeout : Z) (should_wait : bool) (s : state) :
  pass_frame s (final (get_response k timeout should_wait s)).
Proof.
  unfold get_response.
  destruct (should_wait && negb (bool_decide (is_Some (responses (self s) !! k)))).
  - apply get_response_loop_frame.
  - apply pass_frame_refl.
Qed.

(** ** Counting what the user and the transport see *)

Lemma counts_emit (e : event) (s : state) :
  warnings (emit e s) = (warnings s + if is_warning e then 1 else 0)%nat
  ∧ connects (emit e s) = (connects s + if is_connect e then 1 else 0)%nat.
Proof.
  unfold warnings, connects. simpl_state.
  rewrite !List.filter_app, !length_app. simpl.
  destruct (is_warning e), (is_connect e); simpl; split; reflexivity.
Qed.

Lemma offline_frame_refl (s : state) : offline_frame s s.
Proof. split; [apply pass_frame_refl |]. repeat split. Qed.

Lemma offline_frame_trans (s1 s2 s3 : state) :
  offline_frame s1 s2 → offline_frame s2 s3 → offline_frame s1 s3.
Proof.
  intros (H12 & ? & ? & ?) (H23 & ? & ? & ?).
  split; [eapply pass_frame_trans; eassumption |]. repeat split; congruence.
Qed.

Lemma poller_turn_offline (r : recv_result) (s : state) :
  ws (self s) = None →
  poller_turn r s = s ∨ poller_turn r s = set_poller_alive false s.
Proof.
  intros Hws. unfold poller_turn. rewrite Hws.
  destruct (poller_alive (env s)), (running (self s)); auto.
Qed.

Lemma advance_offline (t : tick) (s : state) :
  ws (self s) = None → offline_frame s (advance t s).
Proof.
  intros Hws. split; [apply advance_frame |].
  unfold advance. generalize (arrivals t). intros rs.
  assert (∀ s0, ws (self s0) = None →
            let s' := fold_left (fun acc r => poller_turn r acc) rs s0 in
            connected (self s') = connected (self s0)
            ∧ trace (env s') = trace (env s0)) as H.
  { induction rs as [| r rs IH]; intros s0 H0; simpl; [split; reflexivity |].
    destruct (poller_turn_offline r s0 H0) as [-> | ->].
    - apply IH. exact H0.
    - destruct (IH (set_poller_alive false s0) H0) as [Hc Ht].
      split; [rewrite Hc | rewrite Ht]; reflexivity. }
  destruct (H s Hws) as [Hc Ht].
  unfold warnings, connects. simpl_state. rewrite Ht. repeat split. exact Hc.
Qed.

Lemma unqueue_offline (result : json) (s : state) :
  offline_frame s (final (unqueue result s)).
Proof.
  split; [apply poller_frame_pass, unqueue_frame |].
  unfold warnings, connects, unqueue, bind, lift, raise, ret, py_get, py_index,
    handle_incoming_response, modify, del_response.
  run_method; rewrite ?List.filter_app, ?app_nil_r; repeat split; reflexivity.
Qed.

Lemma set_ticks_offline (ts : list tick) (s : state) : offline_frame s (set_ticks ts s).
Proof. split; [apply set_ticks_frame |]. repeat split. Qed.

Lemma get_response_loop_offline (ts : list tick) (k : pykey) (start now timeout : Z)
    (s : state) :
  ws (self s) = None →
  offline_frame s (final (get_response_loop ts k start now timeout s)).
Proof.
  revert s now. induction ts as [| t ts IH]; intros s now Hws.
  - simpl. destruct (now - start <? timeout); [| apply set_ticks_offline].
    destruct (responses (self s) !! k) as [v |]; [| apply set_ticks_offline].
    destruct (truthy v && negb (is_nil_string v)); [| apply set_ticks_offline].
    pose proof (unqueue_offline v (set_ticks [] s)) as H.
    destruct (unqueue v (set_ticks [] s)); exact H.
  - assert (ws (self (advance t s)) = None) as Hws'.
    { destruct (advance_frame t s) as (H & _). congruence. }
    simpl. destruct (now - start <? timeout); [| apply set_ticks_offline].
    destruct (responses (self s) !! k) as [v |].
    + destruct (truthy v && negb (is_nil_string v)).
      * pose proof (unqueue_offline v (set_ticks (t :: ts) s)) as H.
        destruct (unqueue v (set_ticks (t :: ts) s)); exact H.
      * eapply offline_frame_trans; [apply advance_offline; exact Hws | apply IH; exact Hws'].
    + eapply offline_frame_trans; [apply advance_offline; exact Hws | apply IH; exact Hws'].
Qed.

Lemma get_response_offline (k : pykey) (timeout : Z) (should_wait : bool) (s : state) :
  ws (self s) = None →
  offline_frame s (final (get_response k timeout should_wait s)).
Proof.
  intros Hws. unfold get_response.
  destruct (should_wait && negb (bool_decide (is_Some (responses (self s) !! k)))).
  - apply get_response_loop_offline. exact Hws.
  - apply offline_frame_refl.
Qed.

(** ** [connect_ensime_server] *)

Lemma disable_completely_runs (e : option exn) (s : state) :
  disable_completely e s = Ok tt (disabled s).
Proof. reflexivity. Qed.

Lemma disabled_frame (s : state) : poller_frame s (disabled s).
Proof. unfold poller_frame, disabled. run_method; repeat split; congruence. Qed.

Lemma disabled_counts (s : state) :
  warnings (disabled s) = S (warnings s) ∧ connects (disabled s) = connects s.
Proof.
  unfold disabled, warnings, connects.
  destruct (ensime (self s)); simpl_state;
    rewrite ?List.filter_app, ?length_app; simpl; split; lia.
Qed.

Lemma connect_ensime_server_refused (d : nat) (s : state) :
  running (self s) = false ∨ number_try_connection (self s) = 0 →
  connect_ensime_server (S d) s = Ok false (disabled s).
Proof.
  intros H. cbn [connect_ensime_server].
  assert (running (self s) && negb (number_try_connection (self s) =? 0) = false) as ->.
  { destruct H as [-> | ->]; [reflexivity | apply andb_false_r]. }
  reflexivity.
Qed.

Lemma connect_ensime_server_attempts (d : nat) (s : state) (a : address) :
  running (self s) = true →
  number_try_connection (self s) ≠ 0 →
  server_address s = Some a →
  connect_ensime_server (S d) s = handshake d (attempted a s).
Proof.
  intros Hrun Hn Ha. cbn [connect_ensime_server].
  rewrite Hrun. apply Z.eqb_neq in Hn. rewrite Hn. cbn [andb negb].
  unfold server_address in Ha. unfold handshake, attempted.
  destruct s as [[w e es c r n ru co] [ss cs ts cl pa tr iss]]. simpl in *.
  unfold bind at 1. unfold resolve_server. simpl.
  destruct es as [a' |], e as [p |]; try discriminate;
    injection Ha as <-;
    unfold bind at 1; unfold catch, create_connection; simpl;
    (destruct cs as [| [|] rest]; simpl; reflexivity).
Qed.

Lemma attempted_facts (a : address) (s : state) :
  let s1 := attempted a s in
  number_try_connection (self s1) = number_try_connection (self s) - 1
  ∧ connects s1 = S (connects s)
  ∧ call_id (self s1) = call_id (self s)
  ∧ running (self s1) = running (self s)
  ∧ issued (env s1) = issued (env s)
  ∧ send_script (env s1) = send_script (env s)
  ∧ (hd true (connect_script (env s)) = true →
     ws (self s1) = Some (WebSocket a) ∧ warnings s1 = warnings s
     ∧ trace (env s1) = (trace (env s) ++ [Connect a])%list)
  ∧ (hd true (connect_script (env s)) = false →
     ws (self s1) = ws (self s) ∧ connected (self s1) = false
     ∧ warnings s1 = S (warnings s)).
Proof.
  unfold attempted, disabled, warnings, connects.
  destruct s as [[w e es c r n ru co] [ss cs ts cl pa tr iss]].
  destruct cs as [| [|] rest], e as [p |]; simpl;
    rewrite ?List.filter_app, ?length_app; simpl;
    repeat split; try lia; try discriminate; reflexivity.
Qed.



(** C7, as amended: with one connection attempt left, a connect attempt in
    which the transport throws shows exactly one warning, makes one
    transport connection attempt and leaves the session disabled for good
    (no attempt left, not connected, no websocket).  From then on every call
    of [connect_ensime_server] returns false without attempting a transport
    connection, and goes through the disable path again: it shows one more
    warning. *)
Theorem connect_failure_disables (d : nat) (s : state) (a : address) (rest : list bool) :
  running (self s) = true →
  number_try_connection (self s) = 1 →
  ws (self s) = None →
  server_address s = Some a →
  connect_script (env s) = false :: rest →
  (warnings (final (connect_ensime_server (S d) s)) = S (warnings s)
   ∧ connects (final (connect_ensime_server (S d) s)) = S (connects s)
   ∧ number_try_connection (self (final (connect_ensime_server (S d) s))) = 0
   ∧ connected (self (final (connect_ensime_server (S d) s))) = false
   ∧ ws (self (final (connect_ensime_server (S d) s))) = None)
  ∧ (∀ d' s2, number_try_connection (self s2) = 0 →
       ∃ s3, connect_ensime_server (S d') s2 = Ok false s3
             ∧ connects s3 = connects s2
             ∧ warnings s3 = S (warnings s2)
             ∧ number_try_connection (self s3) = 0
             ∧ ws (self s3) = ws (self s2)
             ∧ connected (self s3) = false).
Proof.
  intros Hrun Hn Hws Ha Hscript. split.
  - destruct (attempted_facts a s) as (Hn' & Hc & _ & _ & _ & _ & _ & Hfail).
    destruct Hfail as (Hws' & Hco & Hw); [rewrite Hscript; reflexivity |].
    rewrite Hws in Hws'. rewrite Hn in Hn'.
    assert (∃ s0, connect_ensime_server (S d) s
                  = get_response (KInt (call_id (self (attempted a s)))) (seconds 30) true s0
                  ∧ ws (self s0) = ws (self (attempted a s))
                  ∧ number_try_connection (self s0)
                    = number_try_connection (self (attempted a s))
                  ∧ connected (self s0) = connected (self (attempted a s))
                  ∧ trace (env s0) = trace (env (attempted a s)))
      as (s0 & -> & Hs1 & Hs5 & Hco0 & Htr0).
    { rewrite (connect_ensime_server_attempts d s a Hrun) by (rewrite ?Hn; done).
      unfold handshake, bind at 1, send_request, bind at 1, send. rewrite Hws'.
      cbn beta iota. eexists. split; [reflexivity |]. repeat split. exact Hws'. }
    destruct (get_response_offline (KInt (call_id (self (attempted a s)))) (seconds 30) true s0)
      as (Hframe & Hco' & Hw' & Hc'); [congruence |].
    destruct Hframe as (Hf1 & _ & _ & _ & Hf5 & _).
    rewrite Hw', Hc', Hco', Hf1, Hf5. unfold warnings, connects in *. rewrite Htr0.
    change (1 - 1) with 0 in Hn'. repeat split; congruence.
  - intros d' s2 H0. exists (disabled s2).
    split; [apply connect_ensime_server_refused; right; exact H0 |].
    destruct (disabled_counts s2) as [Hw Hc].
    destruct (disabled_frame s2) as (Hws2 & _ & _ & _ & Hn2 & _).
    repeat split; try assumption; try congruence.
    unfold disabled. destruct (ensime (self s2)); reflexivity.
Qed.

Lemma connect_failure_disables_witness :
  (warnings (final (connect_ensime_server 2 refused_connection)) = 1%nat
   ∧ connects (final (connect_ensime_server 2 refused_connection)) = 1%nat
   ∧ number_try_connection (self (final (connect_ensime_server 2 refused_connection))) = 0
   ∧ connected (self (final (connect_ensime_server 2 refused_connection))) = false
   ∧ ws (self (final (connect_ensime_server 2 refused_connection))) = None)
  ∧ (∀ d' s2, number_try_connection (self s2) = 0 →
       ∃ s3, connect_ensime_server (S d') s2 = Ok false s3
             ∧ connects s3 = connects s2
             ∧ warnings s3 = S (warnings s2)
             ∧ number_try_connection (self s3) = 0
             ∧ ws (self s3) = ws (self s2)
             ∧ connected (self s3) = false).
Proof.
  apply (connect_failure_disables 1 refused_connection (Address 9001 "websocket") []);
    reflexivity.
Defined.

(** C7, as stated, fails: after the failed attempt, a second call of
    [connect_ensime_server] attempts no connection but shows a second
    warning. *)
Lemma second_connect_warns_again :
  returned (connect_ensime_server 2 refused_connection) = Some false
  ∧ warnings (final (connect_ensime_server 2 refused_connection)) = 1%nat
  ∧ returned (connect_ensime_server 2 (final (connect_ensime_server 2 refused_connection)))
    = Some false
  ∧ connects (final (connect_ensime_server 2
                       (final (connect_ensime_server 2 refused_connection)))) = 1%nat
  ∧ warnings (final (connect_ensime_server 2
                       (final (connect_ensime_server 2 refused_connection)))) = 2%nat.
Proof. vm_compute. repeat split; reflexivity. Qed.

(** ** [send] *)

(** C5, as amended: [send] does nothing when there is no websocket
    ([self.ws] is [None]); the [connected] flag plays no part.  With a
    websocket, the message goes out.  If the transport raises during that
    send, [connect_ensime_server] is run once and then, if there is a
    websocket, the one message is sent once more; when that goes through,
    [send] returns.  (The theorem is about whatever [connect] stands for the
    reconnection.) *)
Theorem send_reconnects_once (connect : M bool) (msg : json) (s : state) :
  (ws (self s) = None → send connect msg s = Ok tt s)
  ∧ (is_Some (ws (self s)) →
     ∀ rest, send_script (env s) = true :: rest →
     send connect msg s = Ok tt (emit (Transmit msg) (set_send_script rest s)))
  ∧ (is_Some (ws (self s)) →
     ∀ rest, send_script (env s) = false :: rest →
     ∀ b s1, connect (set_send_script rest s) = Ok b s1 →
     (ws (self s1) = None → send connect msg s = Ok tt s1)
     ∧ (is_Some (ws (self s1)) →
        ∀ rest', send_script (env s1) = true :: rest' →
        send connect msg s = Ok tt (emit (Transmit msg) (set_send_script rest' s1)))).
Proof.
  unfold send. split; [| split].
  - intros ->. reflexivity.
  - intros [w ->] rest Hscript. unfold catch, ws_send. rewrite Hscript. reflexivity.
  - intros [w ->] rest Hscript b s1 Hconnect.
    unfold catch, ws_send. rewrite Hscript.
    destruct (decide (WebSocketException = WebSocketException)) as [_ | Hne]; [| congruence].
    unfold reconnect, bind. rewrite Hconnect. split.
    + intros ->. reflexivity.
    + intros [w1 ->] rest' Hscript1. unfold ws_send. rewrite Hscript1. reflexivity.
Qed.

Lemma send_reconnects_once_witness :
  send (connect_ensime_server 1) ping flaky
  = Ok tt (emit (Transmit ping) (set_send_script [] (disabled (set_send_script [true] flaky)))).
Proof.
  pose proof (send_reconnects_once (connect_ensime_server 1) ping flaky) as (_ & _ & H).
  destruct (H ltac:(eexists; reflexivity) [true] eq_refl false
              (disabled (set_send_script [true] flaky)) eq_refl) as [_ H'].
  apply H'; [eexists; reflexivity | reflexivity].
Defined.

(** C5, as stated, fails: a session that has a websocket but is not
    connected ([connected] is false, as it is during the handshake and after
    [shutdown_server]); [send] is no no-op there, the message goes out on
    the websocket. *)
Lemma send_while_not_connected :
  connected (self online) = false
  ∧ connected (self (final (shutdown_server online))) = false
  ∧ trace (env (final (send (connect_ensime_server 1) ping online))) = [Transmit ping]
  ∧ trace (env (final (send (connect_ensime_server 1) ping (final (shutdown_server online)))))
    = [Uncolorized; Transmit ping].
Proof. vm_compute. repeat split; reflexivity. Qed.

(** ** Call ids *)

Lemma ids_frame_refl (s : state) : ids_frame s s.
Proof. repeat split. Qed.

Lemma ids_frame_trans (s1 s2 s3 : state) :
  ids_frame s1 s2 → ids_frame s2 s3 → ids_frame s1 s3.
Proof. intros (?&?&?&?) (?&?&?&?). repeat split; congruence. Qed.

Lemma pass_frame_ids (s s' : state) : pass_frame s s' → ids_frame s s'.
Proof. intros (?&?&?&?&?&?&?&?&?). repeat split; assumption. Qed.

Lemma poller_frame_ids (s s' : state) : poller_frame s s' → ids_frame s s'.
Proof. intros H. apply pass_frame_ids, poller_frame_pass, H. Qed.

Lemma session_inv_boot (sends connects : list bool) (ts : list tick) :
  session_inv (boot sends connects ts).
Proof. split; [right; split; reflexivity |]. split; [discriminate | reflexivity]. Qed.

Lemma session_inv_frame (s s' : state) :
  session_inv s → ids_frame s s' → session_inv s'.
Proof.
  intros (Hn & Hid & Hiss) (Hws & Hc & Hn' & Hi). unfold session_inv.
  rewrite Hws, Hc, Hn', Hi. repeat split; assumption.
Qed.

Lemma connect_ensime_server_spent (d : nat) (s : state) :
  number_try_connection (self s) = 0 →
  ids_frame s (final (connect_ensime_server d s)).
Proof.
  intros H0. destruct d as [| d]; [apply ids_frame_refl |].
  rewrite connect_ensime_server_refused by (right; exact H0).
  apply poller_frame_ids, disabled_frame.
Qed.

Lemma ws_send_frame (msg : json) (s : state) : ids_frame s (final (ws_send msg s)).
Proof. unfold ws_send. destruct (send_script (env s)) as [| [|] rest]; repeat split. Qed.

Lemma send_frame (connect : M bool) (msg : json) (s : state) :
  (∀ s0, number_try_connection (self s0) = 0 → ids_frame s0 (final (connect s0))) →
  session_inv s →
  ids_frame s (final (send connect msg s)).
Proof.
  intros Hconnect (Hn & _ & _). unfold send.
  destruct (ws (self s)) as [w |] eqn:Hws; [| apply ids_frame_refl].
  assert (number_try_connection (self s) = 0) as H0.
  { destruct Hn as [H | [_ H]]; [exact H | congruence]. }
  unfold catch. pose proof (ws_send_frame msg s) as Hsent.
  destruct (ws_send msg s) as [[] s1 | e s1 | s1]; simpl in Hsent; try exact Hsent.
  destruct (decide (e = WebSocketException)) as [_ | _]; [| exact Hsent].
  eapply ids_frame_trans; [exact Hsent |].
  assert (number_try_connection (self s1) = 0) as H1.
  { destruct Hsent as (_ & _ & H & _). congruence. }
  unfold reconnect, bind. pose proof (Hconnect s1 H1) as Hre.
  destruct (connect s1) as [b s2 | e2 s2 | s2]; simpl in Hre; try exact Hre.
  destruct (ws (self s2)); [| exact Hre].
  eapply ids_frame_trans; [exact Hre | apply ws_send_frame].
Qed.

(** One call of [send_request]: when it returns, it returns the counter
    and moves it on by one. *)
Lemma send_request_returns (connect : M bool) (request : json) (s : state) :
  (∀ s0, number_try_connection (self s0) = 0 → ids_frame s0 (final (connect s0))) →
  session_inv s →
  match send_request connect request s with
  | Ok id s' =>
      id = call_id (self s)
      ∧ call_id (self s') = id + 1
      ∧ issued (env s') = (issued (env s) ++ [id])%list
      ∧ ws (self s') = ws (self s)
      ∧ number_try_connection (self s') = number_try_connection (self s)
  | Raised _ s' | Unfinished s' => ids_frame s s'
  end.
Proof.
  intros Hconnect Hinv. unfold send_request, bind.
  match goal with
  | |- context [send connect ?m s] => pose proof (send_frame connect m s Hconnect Hinv) as H
  end.
  destruct (send connect _ s) as [[] s1 | e s1 | s1]; simpl in H; try exact H.
  destruct H as (Hws & Hc & Hn & Hi). simpl_state. rewrite Hc, Hi. repeat split; assumption.
Qed.

Lemma send_request_inv (connect : M bool) (request : json) (s : state) :
  (∀ s0, number_try_connection (self s0) = 0 → ids_frame s0 (final (connect s0))) →
  session_inv s →
  session_inv (final (send_request connect request s)).
Proof.
  intros Hconnect Hinv. pose proof (send_request_returns connect request s Hconnect Hinv) as H.
  destruct (send_request connect request s) as [id s' | e s' | s']; simpl;
    try (eapply session_inv_frame; eassumption).
  destruct H as (-> & Hc & Hi & Hws & Hn). destruct Hinv as (Hb & Hid & Hiss).
  unfold session_inv. rewrite Hc, Hi, Hws, Hn, Hiss.
  split; [exact Hb |]. split; [lia |].
  replace (call_id (self s) + 1 - 1) with ((call_id (self s) - 1) + 1) by lia.
  rewrite seqZ_app by lia. f_equal.
  replace (1 + (call_id (self s) - 1)) with (call_id (self s)) by lia. reflexivity.
Qed.

Lemma connect_ensime_server_inv (d : nat) (s : state) :
  session_inv s →
  session_inv (final (connect_ensime_server d s)).
Proof.
  intros Hinv. destruct d as [| d]; [exact Hinv |].
  destruct (running (self s) && negb (number_try_connection (self s) =? 0)) eqn:Hguard.
  - apply andb_true_iff in Hguard as [Hrun Hn].
    apply negb_true_iff, Z.eqb_neq in Hn.
    destruct (server_address s) as [a |] eqn:Ha.
    + rewrite (connect_ensime_server_attempts d s a Hrun Hn Ha).
      destruct (attempted_facts a s) as (Hn' & _ & Hid & _ & Hiss & _ & _ & _).
      assert (session_inv (attempted a s)) as Hatt.
      { destruct Hinv as (Hb & Hc & Hi). unfold session_inv.
        rewrite Hid, Hiss, Hn'. split; [left; lia |]. split; assumption. }
      unfold handshake, bind.
      pose proof (send_request_inv (connect_ensime_server d) connection_info_request
                    (attempted a s) (connect_ensime_server_spent d) Hatt) as Hsent.
      destruct (send_request (connect_ensime_server d) connection_info_request (attempted a s))
        as [id s1 | e s1 | s1]; simpl in Hsent; try exact Hsent.
      eapply session_inv_frame; [exact Hsent |].
      apply pass_frame_ids, get_response_frame.
    + cbn [connect_ensime_server]. rewrite Hrun.
      apply Z.eqb_neq in Hn. rewrite Hn. cbn [andb negb].
      unfold server_address in Ha. unfold bind at 1, resolve_server.
      destruct (ensime_server (self s)); [discriminate |].
      destruct (ensime (self s)); [discriminate |]. exact Hinv.
  - assert (running (self s) = false ∨ number_try_connection (self s) = 0) as H.
    { apply andb_false_iff in Hguard as [H | H]; [left; exact H | right].
      apply negb_false_iff, Z.eqb_eq in H. exact H. }
    rewrite connect_ensime_server_refused by exact H.
    eapply session_inv_frame; [exact Hinv |]. apply poller_frame_ids, disabled_frame.
Qed.

Lemma setup_frame (launch : option process) (s : state) :
  ids_frame s (final (setup launch s)).
Proof.
  unfold setup, bind, initialize_ensime, modify, ret.
  destruct (ensime (self s)), launch; repeat split.
Qed.

Lemma teardown_frame (s : state) : ids_frame s (final (teardown s)).
Proof.
  unfold teardown, bind, modify, shutdown_server. simpl_state.
  destruct (ensime (self s)); repeat split.
Qed.

Lemma await_ready_frame (ts : list tick) (timeout : Z) (s : state) :
  ids_frame s (final (await_ready ts timeout s)).
Proof.
  revert timeout s. induction ts as [| t ts IH]; intros timeout s; simpl;
    unfold is_ready; destruct (ensime (self s)) as [p |]; try (repeat split; fail);
    destruct (negb (ready_at p <=? clock (env s)) && (0 <? timeout));
    try (repeat split; fail).
  eapply ids_frame_trans; [apply pass_frame_ids, advance_frame | apply IH].
Qed.

Lemma connect_when_ready_inv (depth : nat) (timeout : Z) (s : state) :
  session_inv s →
  session_inv (final (connect_when_ready depth timeout shutdown_server s)).
Proof.
  intros Hinv. unfold connect_when_ready.
  destruct (ws (self s)); [exact Hinv |].
  unfold bind at 1.
  pose proof (await_ready_frame (ticks (env s)) timeout s) as Hwait.
  destruct (await_ready (ticks (env s)) timeout s) as [[] s1 | e s1 | s1]; simpl in Hwait;
    try (eapply session_inv_frame; eassumption).
  assert (session_inv s1) as H1 by (eapply session_inv_frame; eassumption).
  unfold bind at 1, is_ready.
  destruct (ensime (self s1)) as [p |]; [| exact H1].
  destruct (ready_at p <=? clock (env s1)).
  - unfold bind at 1, bind at 1.
    pose proof (connect_ensime_server_inv depth s1 H1) as H2.
    destruct (connect_ensime_server depth s1) as [c s2 | e s2 | s2]; simpl in H2;
      try exact H2.
    assert (∀ c0, connected (self (set_connected c0 s2)) = c0) as Hcc by reflexivity.
    unfold modify. cbn beta iota. rewrite Hcc. destruct c.
    + eapply session_inv_frame; [exact H2 | repeat split].
    + eapply session_inv_frame; [exact H2 |].
      apply (ids_frame_trans _ (set_connected false s2));
        [repeat split | apply poller_frame_ids, shutdown_server_frame].
  - unfold bind, ret. destruct (connected (self s1)); [exact H1 |].
    eapply session_inv_frame; [exact H1 | apply poller_frame_ids, shutdown_server_frame].
Qed.

Lemma step_inv (depth : nat) (o : op) (s : state) :
  session_inv s → session_inv (step depth o s).
Proof.
  intros Hinv. destruct o as [launch | timeout | | request | k timeout w | | | t]; simpl.
  - eapply session_inv_frame; [exact Hinv | apply setup_frame].
  - apply connect_when_ready_inv. exact Hinv.
  - apply connect_ensime_server_inv. exact Hinv.
  - apply send_request_inv; [apply connect_ensime_server_spent | exact Hinv].
  - eapply session_inv_frame; [exact Hinv | apply pass_frame_ids, get_response_frame].
  - eapply session_inv_frame; [exact Hinv | apply poller_frame_ids, shutdown_server_frame].
  - eapply session_inv_frame; [exact Hinv | apply teardown_frame].
  - eapply session_inv_frame; [exact Hinv | apply pass_frame_ids, advance_frame].
Qed.

Lemma session_inv_session (depth : nat) (ops : list op) (s : state) :
  session_inv s → session_inv (session depth ops s).
Proof.
  unfold session. revert s. induction ops as [| o ops IH]; intros s Hinv; simpl.
  - exact Hinv.
  - apply IH, step_inv, Hinv.
Qed.

(** C2: in every session (any calls made on a client since [__init__], in
    any world), the ids that the calls of [send_request] have returned, in
    the order of the calls, the handshake's among them, are 1, 2, 3, ... with
    no gap and no repeat; the next call that returns, returns the next
    integer and moves the counter on, whether or not there is a websocket
    to send on and whether or not the first send went through. *)
Theorem call_ids_count_up (depth : nat) (ops : list op) (sends connects : list bool)
    (ts : list tick) (request : json) :
  issued (env (session depth ops (boot sends connects ts)))
    = seqZ 1 (Z.of_nat (length (issued (env (session depth ops (boot sends connects ts))))))
  ∧ call_id (self (session depth ops (boot sends connects ts)))
    = 1 + Z.of_nat (length (issued (env (session depth ops (boot sends connects ts)))))
  ∧ match send_request (connect_ensime_server depth) request
            (session depth ops (boot sends connects ts)) with
    | Ok id s' =>
        id = 1 + Z.of_nat (length (issued (env (session depth ops (boot sends connects ts)))))
        ∧ call_id (self s') = id + 1
        ∧ issued (env s')
          = (issued (env (session depth ops (boot sends connects ts))) ++ [id])%list
    | Raised _ s' | Unfinished s' =>
        call_id (self s') = call_id (self (session depth ops (boot sends connects ts)))
        ∧ issued (env s') = issued (env (session depth ops (boot sends connects ts)))
    end
  ∧ (ws (self (session depth ops (boot sends connects ts))) = None
     ∨ hd true (send_script (env (session depth ops (boot sends connects ts)))) = true →
     returned (send_request (connect_ensime_server depth) request
                 (session depth ops (boot sends connects ts)))
     = Some (call_id (self (session depth ops (boot sends connects ts))))).
Proof.
  pose proof (session_inv_session depth ops (boot sends connects ts)
                (session_inv_boot sends connects ts)) as Hinv.
  set (s := session depth ops (boot sends connects ts)) in *.
  assert (Z.of_nat (length (issued (env s))) = call_id (self s) - 1) as Hlen.
  { destruct Hinv as (_ & Hid & ->). rewrite length_seqZ. lia. }
  rewrite Hlen. destruct Hinv as (Hb & Hid & Hiss).
  split; [exact Hiss |]. split; [lia |]. split.
  - pose proof (send_request_returns (connect_ensime_server depth) request s
                  (connect_ensime_server_spent depth) (conj Hb (conj Hid Hiss))) as H.
    destruct (send_request (connect_ensime_server depth) request s) as [id s' | e s' | s'].
    + destruct H as (-> & Hc & Hi & _). split; [lia |]. split; assumption.
    + destruct H as (_ & Hc & _ & Hi). split; assumption.
    + destruct H as (_ & Hc & _ & Hi). split; assumption.
  - intros Hgo. unfold send_request, bind, send.
    destruct (ws (self s)) as [w |] eqn:Hws.
    + destruct Hgo as [Hgo | Hgo]; [discriminate Hgo |].
      unfold catch, ws_send.
      destruct (send_script (env s)) as [| [|] rest]; try discriminate Hgo; reflexivity.
    + reflexivity.
Qed.

Lemma call_ids_count_up_witness :
  issued (env (session 2 two_requests
                 (boot [true; false; true] [true] (repeat (Tick [] [] 250) 10))))
  = seqZ 1 (Z.of_nat (length (issued (env (session 2 two_requests
                 (boot [true; false; true] [true] (repeat (Tick [] [] 250) 10)))))))
  ∧ returned (send_request (connect_ensime_server 2) (JStr "c") (boot [] [] []))
    = Some (call_id (self (boot [] [] []))).
Proof.
  split.
  - apply (call_ids_count_up 2 two_requests [true; false; true] [true]
             (repeat (Tick [] [] 250) 10) JNull).
  - apply (call_ids_count_up 2 [] [] [] [] (JStr "c")). left. reflexivity.
Defined.

Example two_requests_ids :
  issued (env (session 2 two_requests
                 (boot [true; false; true] [true] (repeat (Tick [] [] 250) 10))))
  = [1; 2; 3].
Proof. vm_compute. reflexivity. Qed.

(** * Further properties of the client *)

(** ** [shutdown_server], [teardown] and [setup] *)

(** X1: [shutdown_server] always returns; it leaves the client not
    connected, and leaves [running], the websocket, the registry, the
    counter and the attempts left as they were.  Called a second time it
    changes nothing more in the client. *)
Theorem shutdown_server_idempotent (s : state) :
  ∃ s1 s2,
    shutdown_server s = Ok tt s1
    ∧ shutdown_server s1 = Ok tt s2
    ∧ self s2 = self s1
    ∧ connected (self s1) = false
    ∧ running (self s1) = running (self s)
    ∧ ws (self s1) = ws (self s)
    ∧ responses (self s1) = responses (self s)
    ∧ call_id (self s1) = call_id (self s)
    ∧ number_try_connection (self s1) = number_try_connection (self s).
Proof.
  unfold shutdown_server. eexists _, _. split; [reflexivity |]. split; [reflexivity |].
  destruct s as [[w e es c r n ru co] wd]. destruct e; simpl; repeat split.
Qed.

Lemma teardown_runs (s : state) :
  teardown s = Ok tt (final (teardown s))
  ∧ running (self (final (teardown s))) = false
  ∧ connected (self (final (teardown s))) = false
  ∧ poller_frame (set_running false s) (final (teardown s)).
Proof.
  unfold teardown, bind, modify, shutdown_server, poller_frame. simpl_state.
  destruct (ensime (self s)); simpl; repeat split.
Qed.

Lemma poller_turn_stopped (r : recv_result) (s : state) :
  running (self s) = false →
  responses (self (poller_turn r s)) = responses (self s)
  ∧ trace (env (poller_turn r s)) = trace (env s)
  ∧ poller_alive (env (poller_turn r s)) = false.
Proof.
  intros Hrun. unfold poller_turn. rewrite Hrun.
  destruct (poller_alive (env s)) eqn:Halive; repeat split; assumption.
Qed.

(** X2: [teardown] always returns and leaves the client neither running
    nor connected.  After it the receiver loop ends at its next test,
    whatever it would have received, without storing or forwarding
    anything, and [connect_ensime_server] returns false without attempting
    a transport connection. *)
Theorem teardown_stops_the_client (d : nat) (inputs : list poll_input) (r : recv_result)
    (s : state) :
  returned (teardown s) = Some tt
  ∧ running (self (final (teardown s))) = false
  ∧ connected (self (final (teardown s))) = false
  ∧ queue_poll inputs (final (teardown s)) = Ok tt (final (teardown s))
  ∧ responses (self (poller_turn r (final (teardown s)))) = responses (self (final (teardown s)))
  ∧ trace (env (poller_turn r (final (teardown s)))) = trace (env (final (teardown s)))
  ∧ poller_alive (env (poller_turn r (final (teardown s)))) = false
  ∧ returned (connect_ensime_server (S d) (final (teardown s))) = Some false
  ∧ connects (final (connect_ensime_server (S d) (final (teardown s))))
    = connects (final (teardown s))
  ∧ ws (self (final (connect_ensime_server (S d) (final (teardown s))))) = ws (self s).
Proof.
  destruct (teardown_runs s) as (Hrun & Hstop & Hconn & Hframe).
  destruct (poller_turn_stopped r (final (teardown s)) Hstop) as (H1 & H2 & H3).
  split; [rewrite Hrun; reflexivity |]. split; [exact Hstop |]. split; [exact Hconn |].
  split; [apply queue_poll_stopped; exact Hstop |].
  split; [exact H1 |]. split; [exact H2 |]. split; [exact H3 |].
  rewrite connect_ensime_server_refused by (left; exact Hstop).
  destruct (disabled_counts (final (teardown s))) as [_ Hc].
  destruct (disabled_frame (final (teardown s))) as (Hws & _).
  destruct Hframe as (Hws' & _).
  split; [reflexivity |]. split; [exact Hc |].
  cbn [final]. rewrite Hws, Hws'. reflexivity.
Qed.

(** X3: [setup] always returns; it returns true iff the client has a
    server process afterwards, and sets [running] to what it returns.  A
    process the client already has is kept and the launcher is not used; a
    client without one gets what the launcher gives.  [setup] itself
    attempts no transport connection. *)
Theorem setup_reports_the_server (launch : option process) (s : state) :
  ∃ up s',
    setup launch s = Ok up s'
    ∧ (up = true ↔ is_Some (ensime (self s')))
    ∧ running (self s') = up
    ∧ (is_Some (ensime (self s)) → ensime (self s') = ensime (self s) ∧ up = true)
    ∧ (ensime (self s) = None → ensime (self s') = launch)
    ∧ trace (env s') = trace (env s)
    ∧ ws (self s') = ws (self s)
    ∧ responses (self s') = responses (self s).
Proof.
  unfold setup, bind, initialize_ensime, modify, ret.
  eexists _, _. split; [reflexivity |].
  split; [simpl_state; apply bool_decide_eq_true |].
  destruct s as [[w e es c r n ru co] wd].
  destruct e as [p |], launch as [q |]; simpl; repeat split;
    try (intros [x Hx]; discriminate Hx); try (intros Hx; discriminate Hx);
    match goal with
    | H : is_Some None |- _ => destruct H as [x Hx]; discriminate Hx
    end.
Qed.

(** X6: called while [running] is true and attempts remain, on a client
    that has neither a server process nor a cached address (as after
    [__init__], before [setup]), [connect_ensime_server] is left by an
    [AttributeError] ([None.http_port()]): nothing has been attempted and
    nothing has changed, the attempt is not counted. *)
Theorem connect_ensime_server_before_setup (d : nat) (s : state) :
  running (self s) = true →
  number_try_connection (self s) ≠ 0 →
  ensime (self s) = None →
  ensime_server (self s) = None →
  connect_ensime_server (S d) s = Raised AttributeError s.
Proof.
  intros Hrun Hn He Hes. cbn [connect_ensime_server].
  rewrite Hrun. apply Z.eqb_neq in Hn. rewrite Hn. cbn [andb negb].
  unfold bind at 1, resolve_server. rewrite Hes, He. reflexivity.
Qed.

Lemma connect_ensime_server_before_setup_witness :
  connect_ensime_server 1 (boot [] [true] []) = Raised AttributeError (boot [] [true] []).
Proof.
  apply connect_ensime_server_before_setup; [reflexivity | discriminate | reflexivity ..].
Defined.

(** ** What the receiver loop does with what it receives *)

Lemma queue_poll_body_stores (fields : list (string * json)) (k : pykey) (s : state) :
  hash_key (default JNull (assoc "callId" fields)) = Some k →
  k ≠ KNone →
  queue_poll_body (RecvJson (JObj fields)) s
  = Ok tt (set_responses (<[k := JObj fields]> (responses (self s))) s).
Proof.
  intros Hhash Hk.
  unfold queue_poll_body, catch, bind, receive, lift, ret, py_get, store_response.
  destruct (default JNull (assoc "callId" fields)) eqn:Hc;
    simpl in Hhash; try discriminate; injection Hhash as <-; try reflexivity.
  congruence.
Qed.

Lemma queue_poll_body_unsolicited (fields : list (string * json)) (payload : json)
    (s : state) :
  default JNull (assoc "callId" fields) = JNull →
  assoc "payload" fields = Some payload →
  queue_poll_body (RecvJson (JObj fields)) s = Ok tt (forwarded JNull payload s).
Proof.
  intros Hc Hp.
  unfold queue_poll_body, catch, bind, receive, lift, ret, py_get, py_index, forwarded,
    handle_incoming_response, modify.
  rewrite Hc, Hp. destruct (truthy payload); reflexivity.
Qed.

Lemma queue_poll_body_recv_fails (s : state) :
  queue_poll_body RecvFails s = Ok tt (if connected (self s) then disabled s else s).
Proof.
  unfold queue_poll_body, catch, bind, receive, raise, log_and_close, bind.
  destruct (decide (WebSocketException = WebSocketException)); [| congruence].
  destruct (connected (self s)); reflexivity.
Qed.

(** X4: one pass of the receiver loop on a message that parses to an
    object.  With a callId (hashable, not null) the message is stored under
    that id, in place of whatever was stored under it, every other entry
    stays, and nothing goes to the handler.  Without a callId but with a
    payload, the registry is untouched and the payload, if not empty, goes
    to the handler once, with call id [None].  Two messages with the same
    callId, one after the other: the registry holds the second. *)
Theorem queue_poll_files_or_forwards (fields fields' : list (string * json)) (s : state) :
  is_Some (ws (self s)) →
  running (self s) = true →
  (∀ k, hash_key (default JNull (assoc "callId" fields)) = Some k → k ≠ KNone →
     ∃ s1, queue_poll [Received (RecvJson (JObj fields))] s = Unfinished s1
           ∧ responses (self s1) !! k = Some (JObj fields)
           ∧ (∀ k', k' ≠ k → responses (self s1) !! k' = responses (self s) !! k')
           ∧ trace (env s1) = trace (env s)
           ∧ (hash_key (default JNull (assoc "callId" fields')) = Some k →
              ∃ s2, queue_poll [Received (RecvJson (JObj fields));
                                Received (RecvJson (JObj fields'))] s = Unfinished s2
                    ∧ responses (self s2) !! k = Some (JObj fields')))
  ∧ (default JNull (assoc "callId" fields) = JNull →
     ∀ payload, assoc "payload" fields = Some payload →
     ∃ s1, queue_poll [Received (RecvJson (JObj fields))] s = Unfinished s1
           ∧ responses (self s1) = responses (self s)
           ∧ trace (env s1)
             = (trace (env s) ++ if truthy payload then [Handled JNull payload] else [])%list).
Proof.
  intros [w Hws] Hrun. split.
  - intros k Hhash Hk.
    assert (∀ m, running (self (set_responses m s)) = true) as Hrun1 by (intros m; exact Hrun).
    assert (∀ m, ws (self (set_responses m s)) = Some w) as Hws1 by (intros m; exact Hws).
    exists (set_responses (<[k := JObj fields]> (responses (self s))) s).
    split.
    { cbn [queue_poll]. rewrite Hrun, Hws, (queue_poll_body_stores fields k s Hhash Hk).
      cbn [queue_poll]. rewrite Hrun1. reflexivity. }
    split; [apply lookup_insert_eq |].
    split; [intros k' Hne; apply lookup_insert_ne; congruence |].
    split; [reflexivity |].
    intros Hhash'. eexists. split.
    { cbn [queue_poll]. rewrite Hrun, Hws, (queue_poll_body_stores fields k s Hhash Hk).
      cbn [queue_poll]. rewrite Hrun1, Hws1, (queue_poll_body_stores fields' k _ Hhash' Hk).
      cbn [queue_poll]. simpl_state. rewrite Hrun. reflexivity. }
    simpl_state. apply lookup_insert_eq.
  - intros Hc payload Hp. exists (forwarded JNull payload s).
    assert (running (self (forwarded JNull payload s)) = true) as Hrun1.
    { unfold forwarded. destruct (truthy payload); exact Hrun. }
    split.
    { cbn [queue_poll]. rewrite Hrun, Hws, (queue_poll_body_unsolicited fields payload s Hc Hp).
      cbn [queue_poll]. rewrite Hrun1. reflexivity. }
    unfold forwarded. destruct (truthy payload); simpl_state;
      rewrite ?app_nil_r; repeat split; reflexivity.
Qed.

Lemma queue_poll_files_or_forwards_witness :
  ∃ s1, queue_poll [Received (RecvJson (JObj [("payload", JObj [("typehint", JStr "Note")])]))]
          online = Unfinished s1
        ∧ responses (self s1) = responses (self online)
        ∧ trace (env s1)
          = (trace (env online) ++ [Handled JNull (JObj [("typehint", JStr "Note")])])%list.
Proof.
  pose proof (queue_poll_files_or_forwards
                [("payload", JObj [("typehint", JStr "Note")])] [] online) as H.
  destruct H as [_ H]; [eexists; reflexivity | reflexivity |].
  apply (H eq_refl (JObj [("typehint", JStr "Note")]) eq_refl).
Defined.

Lemma queue_poll_errors_swallowed (n : nat) (post : list poll_input) (s : state) :
  is_Some (ws (self s)) →
  running (self s) = true →
  connected (self s) = false →
  queue_poll (replicate n (Received RecvFails) ++ post) s = queue_poll post s.
Proof.
  intros [w Hws] Hrun Hco. induction n as [| n IH]; [reflexivity |].
  simpl. rewrite Hrun, Hws, queue_poll_body_recv_fails, Hco. exact IH.
Qed.

(** X5: a run of transport errors of [recv].  While the client is
    connected, the first of them shuts the server down and shows the
    warning, once; the client is then no longer connected, and the errors
    that follow are passed over in silence.  On a client that is not
    connected all of them are.  Either way the loop goes on. *)
Theorem queue_poll_warns_once (n : nat) (post : list poll_input) (s : state) :
  is_Some (ws (self s)) →
  running (self s) = true →
  queue_poll (replicate (S n) (Received RecvFails) ++ post) s
  = queue_poll post (if connected (self s) then disabled s else s)
  ∧ warnings (if connected (self s) then disabled s else s)
    = (warnings s + if connected (self s) then 1 else 0)%nat
  ∧ connected (self (if connected (self s) then disabled s else s)) = false
  ∧ running (self (if connected (self s) then disabled s else s)) = true.
Proof.
  intros [w Hws] Hrun.
  destruct (connected (self s)) eqn:Hco.
  - destruct (disabled_frame s) as (Hws' & _ & _ & _ & _ & Hrun' & _).
    assert (connected (self (disabled s)) = false) as Hco'.
    { unfold disabled. destruct (ensime (self s)); reflexivity. }
    destruct (disabled_counts s) as [Hw _].
    split; [| split; [rewrite Hw; lia | split; [exact Hco' | congruence]]].
    change ((replicate (S n) (Received RecvFails) ++ post)%list)
      with (Received RecvFails :: (replicate n (Received RecvFails) ++ post)%list).
    cbn [queue_poll]. rewrite Hrun, Hws, queue_poll_body_recv_fails, Hco.
    apply queue_poll_errors_swallowed; [rewrite Hws'; eexists; exact Hws | congruence | exact Hco'].
  - split; [| split; [lia | split; assumption]].
    apply (queue_poll_errors_swallowed (S n)); [eexists; exact Hws | exact Hrun | exact Hco].
Qed.

Lemma queue_poll_warns_once_witness :
  queue_poll (replicate 3 (Received RecvFails) ++ []) (set_connected true online)
  = queue_poll [] (disabled (set_connected true online))
  ∧ warnings (disabled (set_connected true online))
    = (warnings (set_connected true online) + 1)%nat
  ∧ connected (self (disabled (set_connected true online))) = false
  ∧ running (self (disabled (set_connected true online))) = true.
Proof.
  apply (queue_poll_warns_once 2 [] (set_connected true online));
    [eexists; reflexivity | reflexivity].
Defined.

(** ** What [get_response] does to the registry *)

Lemma unqueue_responses (result : json) (s : state) :
  responses (self (final (unqueue result s))) = responses (self s)
  ∨ ∃ k', is_Some (responses (self s) !! k')
          ∧ returned (unqueue result s) = Some tt
          ∧ responses (self (final (unqueue result s))) = delete k' (responses (self s)).
Proof.
  unfold unqueue, bind, lift, raise, ret, py_get, py_index, handle_incoming_response,
    modify, del_response.
  run_method; try (left; reflexivity);
    right; eexists; (split; [eexists; eassumption |]); split; reflexivity.
Qed.

Lemma get_response_loop_responses (ts : list tick) (k : pykey) (start now timeout : Z)
    (s : state) :
  ∃ n, (n ≤ length ts)%nat
       ∧ (responses (self (final (get_response_loop ts k start now timeout s)))
          = responses (self (after (take n ts) s))
          ∨ ∃ k', is_Some (responses (self (after (take n ts) s)) !! k')
                  ∧ is_Some (responses (self (after (take n ts) s)) !! k)
                  ∧ returned (get_response_loop ts k start now timeout s) = Some (0 <? timeout)
                  ∧ responses (self (final (get_response_loop ts k start now timeout s)))
                    = delete k' (responses (self (after (take n ts) s)))).
Proof.
  revert s now. induction ts as [| t ts IH]; intros s now.
  - exists 0%nat. split; [reflexivity |].
    destruct (Z.ltb_spec (now - start) timeout) as [Hwin | Hout];
      [| rewrite get_response_loop_expired by exact Hout; left; reflexivity].
    destruct (responses (self s) !! k) as [v |] eqn:Hk;
      [| simpl; rewrite (proj2 (Z.ltb_lt _ _) Hwin), Hk; left; reflexivity].
    destruct (is_nil v) eqn:Hnil.
    + unfold is_nil in Hnil. apply negb_true_iff in Hnil.
      simpl. rewrite (proj2 (Z.ltb_lt _ _) Hwin), Hk, Hnil. left. reflexivity.
    + rewrite (get_response_loop_found [] k start now timeout s v Hwin Hk Hnil).
      destruct (unqueue_responses v (set_ticks [] s)) as [H | (k' & Hk' & Hret & H)].
      * left. destruct (unqueue v (set_ticks [] s)); exact H.
      * right. exists k'. destruct (unqueue v (set_ticks [] s)); try discriminate Hret.
        split; [exact Hk' |]. split; [simpl; rewrite Hk; eexists; reflexivity |].
        split; [reflexivity | exact H].
  - destruct (Z.ltb_spec (now - start) timeout) as [Hwin | Hout].
    + destruct (responses (self s) !! k) as [v |] eqn:Hk.
      * destruct (is_nil v) eqn:Hnil.
        -- rewrite (get_response_loop_nil t ts k start now timeout s v Hwin Hk Hnil).
           destruct (IH (advance t s) now) as (n & Hn & H).
           exists (S n). split; [simpl; lia | exact H].
        -- exists 0%nat. split; [simpl; lia |].
           rewrite (get_response_loop_found (t :: ts) k start now timeout s v Hwin Hk Hnil).
           destruct (unqueue_responses v (set_ticks (t :: ts) s)) as [H | (k' & Hk' & Hret & H)].
           ++ left. destruct (unqueue v (set_ticks (t :: ts) s)); exact H.
           ++ right. exists k'.
              destruct (unqueue v (set_ticks (t :: ts) s)); try discriminate Hret.
              split; [exact Hk' |]. split; [simpl; rewrite Hk; eexists; reflexivity |].
              split; [reflexivity | exact H].
      * rewrite (get_response_loop_absent t ts k start now timeout s Hwin Hk).
        destruct (IH (advance t s) (clock (env (advance t s)))) as (n & Hn & H).
        exists (S n). split; [simpl; lia | exact H].
    + exists 0%nat. split; [simpl; lia |].
      rewrite get_response_loop_expired by exact Hout. left. reflexivity.
Qed.

(** X7: whatever [get_response] is called with and however it ends
    (returning, timing out, or left by an exception), the registry it
    leaves is the registry as the queue-poller and the other callers have
    made it by then, less at most one entry; and an entry is missing only
    when the call has found a response under the awaited id and returned. *)
Theorem get_response_deletes_at_most_one (k : pykey) (timeout : Z) (should_wait : bool)
    (s : state) :
  ∃ n, (n ≤ length (ticks (env s)))%nat
       ∧ (responses (self (final (get_response k timeout should_wait s)))
          = responses (self (after (take n (ticks (env s))) s))
          ∨ ∃ k', is_Some (responses (self (after (take n (ticks (env s))) s)) !! k')
                  ∧ is_Some (responses (self (after (take n (ticks (env s))) s)) !! k)
                  ∧ returned (get_response k timeout should_wait s) = Some (0 <? timeout)
                  ∧ responses (self (final (get_response k timeout should_wait s)))
                    = delete k' (responses (self (after (take n (ticks (env s))) s)))).
Proof.
  unfold get_response.
  destruct (should_wait && negb (bool_decide (is_Some (responses (self s) !! k)))).
  - apply get_response_loop_responses.
  - exists 0%nat. split; [lia |]. left. reflexivity.
Qed.

(** ** Transport connections in a session *)

Lemma connects_queue_poll_body (r : recv_result) (s : state) :
  connects (final (queue_poll_body r s)) = connects s.
Proof.
  unfold connects, queue_poll_body, catch, bind, receive, lift, raise, ret,
    log_and_close, bind, shutdown_server, _display_ws_warning, handle_incoming_response,
    modify, store_response, py_get, py_index.
  run_method; rewrite ?List.filter_app, ?app_nil_r; reflexivity.
Qed.

Lemma connects_poller_turn (r : recv_result) (s : state) :
  connects (poller_turn r s) = connects s.
Proof.
  unfold poller_turn.
  destruct (poller_alive (env s)); [| reflexivity].
  destruct (running (self s)); [| reflexivity].
  destruct (ws (self s)); [| reflexivity].
  pose proof (connects_queue_poll_body r s) as H.
  destruct (queue_poll_body r s); exact H.
Qed.

Lemma connects_advance (t : tick) (s : state) : connects (advance t s) = connects s.
Proof.
  unfold advance. generalize (arrivals t). intros rs.
  change (connects (fold_left (fun acc r => poller_turn r acc) rs s) = connects s).
  revert s. induction rs as [| r rs IH]; intros s; simpl; [reflexivity |].
  rewrite IH. apply connects_poller_turn.
Qed.

Lemma connects_unqueue (result : json) (s : state) :
  connects (final (unqueue result s)) = connects s.
Proof. destruct (unqueue_offline result s) as (_ & _ & _ & H). exact H. Qed.

Lemma connects_get_response_loop (ts : list tick) (k : pykey) (start now timeout : Z)
    (s : state) :
  connects (final (get_response_loop ts k start now timeout s)) = connects s.
Proof.
  revert s now. induction ts as [| t ts IH]; intros s now; simpl;
    destruct (now - start <? timeout); try reflexivity;
    destruct (responses (self s) !! k) as [v |]; try reflexivity;
    try destruct (truthy v && negb (is_nil_string v)); try reflexivity;
    try (rewrite IH; apply connects_advance);
    match goal with
    | |- context [unqueue v ?s0] =>
        pose proof (connects_unqueue v s0) as H; destruct (unqueue v s0); exact H
    end.
Qed.

Lemma connects_get_response (k : pykey) (timeout : Z) (should_wait : bool) (s : state) :
  connects (final (get_response k timeout should_wait s)) = connects s.
Proof.
  unfold get_response.
  destruct (should_wait && negb (bool_decide (is_Some (responses (self s) !! k)))).
  - apply connects_get_response_loop.
  - reflexivity.
Qed.

Lemma connects_ws_send (msg : json) (s : state) : connects (final (ws_send msg s)) = connects s.
Proof.
  unfold ws_send, connects.
  destruct (send_script (env s)) as [| [|] rest]; simpl_state; cbn [final];
    simpl_state; rewrite ?List.filter_app; simpl; rewrite ?app_nil_r; reflexivity.
Qed.

(** What a call that is no connection attempt leaves alone. *)
Lemma connects_send (connect : M bool) (msg : json) (s : state) :
  (∀ s0, number_try_connection (self s0) = 0 →
         ids_frame s0 (final (connect s0)) ∧ connects (final (connect s0)) = connects s0) →
  session_inv s →
  connects (final (send connect msg s)) = connects s.
Proof.
  intros Hconnect (Hn & _ & _). unfold send.
  destruct (ws (self s)) as [w |] eqn:Hws; [| reflexivity].
  assert (number_try_connection (self s) = 0) as H0.
  { destruct Hn as [H | [_ H]]; [exact H | congruence]. }
  unfold catch. pose proof (ws_send_frame msg s) as Hsent.
  pose proof (connects_ws_send msg s) as Hcs.
  destruct (ws_send msg s) as [[] s1 | e s1 | s1]; simpl in Hsent, Hcs; try exact Hcs.
  destruct (decide (e = WebSocketException)) as [_ | _]; [| exact Hcs].
  assert (number_try_connection (self s1) = 0) as H1.
  { destruct Hsent as (_ & _ & H & _). congruence. }
  unfold reconnect, bind. destruct (Hconnect s1 H1) as [_ Hre].
  destruct (connect s1) as [b s2 | e2 s2 | s2]; cbn [final] in Hre |- *;
    try (rewrite Hre; exact Hcs).
  destruct (ws (self s2)); [| cbn [final]; rewrite Hre; exact Hcs].
  rewrite connects_ws_send, Hre. exact Hcs.
Qed.

Lemma connects_send_request (connect : M bool) (request : json) (s : state) :
  (∀ s0, number_try_connection (self s0) = 0 →
         ids_frame s0 (final (connect s0)) ∧ connects (final (connect s0)) = connects s0) →
  session_inv s →
  connects (final (send_request connect request s)) = connects s.
Proof.
  intros Hconnect Hinv. unfold send_request, bind.
  match goal with
  | |- context [send connect ?m s] => pose proof (connects_send connect m s Hconnect Hinv) as H
  end.
  destruct (send connect _ s) as [[] s1 | e s1 | s1]; exact H.
Qed.

Lemma connect_ensime_server_spent_counts (d : nat) (s : state) :
  number_try_connection (self s) = 0 →
  ids_frame s (final (connect_ensime_server d s))
  ∧ connects (final (connect_ensime_server d s)) = connects s.
Proof.
  intros H0. split; [apply connect_ensime_server_spent; exact H0 |].
  destruct d as [| d]; [reflexivity |].
  rewrite connect_ensime_server_refused by (right; exact H0).
  apply disabled_counts.
Qed.

Lemma connect_ensime_server_no_address (d : nat) (s : state) :
  running (self s) = true →
  number_try_connection (self s) ≠ 0 →
  server_address s = None →
  connect_ensime_server (S d) s = Raised AttributeError s.
Proof.
  intros Hrun Hn Ha. cbn [connect_ensime_server].
  rewrite Hrun. apply Z.eqb_neq in Hn. rewrite Hn. cbn [andb negb].
  unfold server_address in Ha. unfold bind at 1, resolve_server.
  destruct (ensime_server (self s)); [discriminate |].
  destruct (ensime (self s)); [discriminate |]. reflexivity.
Qed.

Lemma one_attempt_frame (s s' : state) :
  one_attempt s → ids_frame s s' → connects s' = connects s → one_attempt s'.
Proof.
  intros [Hinv Hsum] Hframe Hc. split; [eapply session_inv_frame; eassumption |].
  destruct Hframe as (_ & _ & Hn & _). rewrite Hc, Hn. exact Hsum.
Qed.

Lemma one_attempt_connect (d : nat) (s : state) :
  one_attempt s → one_attempt (final (connect_ensime_server d s)).
Proof.
  intros [Hinv Hsum]. split; [apply connect_ensime_server_inv; exact Hinv |].
  destruct d as [| d]; [exact Hsum |].
  destruct (running (self s) && negb (number_try_connection (self s) =? 0)) eqn:Hguard.
  - apply andb_true_iff in Hguard as [Hrun Hn].
    apply negb_true_iff, Z.eqb_neq in Hn.
    destruct (server_address s) as [a |] eqn:Ha.
    + rewrite (connect_ensime_server_attempts d s a Hrun Hn Ha).
      destruct (attempted_facts a s) as (Hn' & Hc & Hid & _ & Hiss & _ & _ & _).
      assert (session_inv (attempted a s)) as Hatt.
      { destruct Hinv as (Hb & Hcid & Hi). unfold session_inv.
        rewrite Hid, Hiss, Hn'. split; [left; lia |]. split; assumption. }
      unfold handshake, bind.
      pose proof (connects_send_request (connect_ensime_server d) connection_info_request
                    (attempted a s) (connect_ensime_server_spent_counts d) Hatt) as Hcs.
      pose proof (send_request_returns (connect_ensime_server d) connection_info_request
                    (attempted a s) (connect_ensime_server_spent d) Hatt) as Hret.
      destruct (send_request (connect_ensime_server d) connection_info_request (attempted a s))
        as [id s1 | e s1 | s1]; simpl in Hcs |- *.
      * destruct Hret as (_ & _ & _ & _ & Hn1).
        rewrite connects_get_response.
        destruct (get_response_frame (KInt id) (seconds 30) true s1) as (_&_&_&_&Hn2&_).
        rewrite Hn2, Hcs, Hn1, Hc, Hn'. lia.
      * destruct Hret as (_ & _ & Hn1 & _). rewrite Hcs, Hn1, Hc, Hn'. lia.
      * destruct Hret as (_ & _ & Hn1 & _). rewrite Hcs, Hn1, Hc, Hn'. lia.
    + rewrite (connect_ensime_server_no_address d s Hrun Hn Ha). exact Hsum.
  - assert (running (self s) = false ∨ number_try_connection (self s) = 0) as H.
    { apply andb_false_iff in Hguard as [H | H]; [left; exact H | right].
      apply negb_false_iff, Z.eqb_eq in H. exact H. }
    rewrite connect_ensime_server_refused by exact H. cbn [final].
    destruct (disabled_counts s) as [_ Hc]. destruct (disabled_frame s) as (_&_&_&_&Hn&_).
    rewrite Hc, Hn. exact Hsum.
Qed.

Lemma connects_shutdown_server (s : state) :
  connects (final (shutdown_server s)) = connects s.
Proof.
  unfold shutdown_server, connects.
  destruct s as [[w e es c r n ru co] [ss cs ts cl pa tr iss]].
  destruct e; simpl; rewrite ?List.filter_app; simpl; rewrite ?app_nil_r; reflexivity.
Qed.

Lemma connects_teardown (s : state) : connects (final (teardown s)) = connects s.
Proof.
  unfold teardown, bind, modify.
  change (connects (final (shutdown_server (set_running false s))) = connects s).
  rewrite connects_shutdown_server. reflexivity.
Qed.

Lemma connects_setup (launch : option process) (s : state) :
  connects (final (setup launch s)) = connects s.
Proof.
  unfold setup, bind, initialize_ensime, modify, ret.
  destruct (ensime (self s)), launch; reflexivity.
Qed.

Lemma connects_await_ready (ts : list tick) (timeout : Z) (s : state) :
  connects (final (await_ready ts timeout s)) = connects s.
Proof.
  revert timeout s. induction ts as [| t ts IH]; intros timeout s; simpl;
    unfold is_ready; destruct (ensime (self s)) as [p |]; try reflexivity;
    destruct (negb (ready_at p <=? clock (env s)) && (0 <? timeout)); try reflexivity.
  rewrite IH. apply connects_advance.
Qed.

Lemma one_attempt_connect_when_ready (depth : nat) (timeout : Z) (s : state) :
  one_attempt s →
  one_attempt (final (connect_when_ready depth timeout shutdown_server s)).
Proof.
  intros Hone. unfold connect_when_ready.
  destruct (ws (self s)); [exact Hone |].
  unfold bind at 1.
  pose proof (await_ready_frame (ticks (env s)) timeout s) as Hwait.
  pose proof (connects_await_ready (ticks (env s)) timeout s) as Hcw.
  destruct (await_ready (ticks (env s)) timeout s) as [[] s1 | e s1 | s1];
    simpl in Hwait, Hcw; try (eapply one_attempt_frame; eassumption).
  assert (one_attempt s1) as H1 by (eapply one_attempt_frame; eassumption).
  unfold bind at 1, is_ready.
  destruct (ensime (self s1)) as [p |]; [| exact H1].
  destruct (ready_at p <=? clock (env s1)).
  - unfold bind at 1, bind at 1.
    pose proof (one_attempt_connect depth s1 H1) as H2.
    destruct (connect_ensime_server depth s1) as [c s2 | e s2 | s2]; simpl in H2;
      try exact H2.
    assert (∀ c0, connected (self (set_connected c0 s2)) = c0) as Hcc by reflexivity.
    unfold modify. cbn beta iota. rewrite Hcc. destruct c.
    + eapply one_attempt_frame; [exact H2 | repeat split | reflexivity].
    + eapply one_attempt_frame; [exact H2 | |].
      * apply (ids_frame_trans _ (set_connected false s2));
          [repeat split | apply poller_frame_ids, shutdown_server_frame].
      * rewrite connects_shutdown_server. reflexivity.
  - unfold bind, ret. destruct (connected (self s1)); [exact H1 |].
    eapply one_attempt_frame;
      [exact H1 | apply poller_frame_ids, shutdown_server_frame
      | apply connects_shutdown_server].
Qed.

Lemma one_attempt_step (depth : nat) (o : op) (s : state) :
  one_attempt s → one_attempt (step depth o s).
Proof.
  intros Hone. destruct o as [launch | timeout | | request | k timeout w | | | t]; simpl.
  - eapply one_attempt_frame; [exact Hone | apply setup_frame | apply connects_setup].
  - apply one_attempt_connect_when_ready. exact Hone.
  - apply one_attempt_connect. exact Hone.
  - destruct Hone as [Hinv Hsum].
    split; [apply send_request_inv; [apply connect_ensime_server_spent | exact Hinv] |].
    rewrite (connects_send_request _ request s (connect_ensime_server_spent_counts depth) Hinv).
    pose proof (send_request_returns (connect_ensime_server depth) request s
                  (connect_ensime_server_spent depth) Hinv) as H.
    destruct (send_request (connect_ensime_server depth) request s) as [id s' | e s' | s'];
      simpl.
    + destruct H as (_ & _ & _ & _ & Hn). rewrite Hn. exact Hsum.
    + destruct H as (_ & _ & Hn & _). rewrite Hn. exact Hsum.
    + destruct H as (_ & _ & Hn & _). rewrite Hn. exact Hsum.
  - eapply one_attempt_frame;
      [exact Hone | apply pass_frame_ids, get_response_frame | apply connects_get_response].
  - eapply one_attempt_frame;
      [exact Hone | apply poller_frame_ids, shutdown_server_frame
      | apply connects_shutdown_server].
  - eapply one_attempt_frame; [exact Hone | apply teardown_frame | apply connects_teardown].
  - eapply one_attempt_frame;
      [exact Hone | apply pass_frame_ids, advance_frame | apply connects_advance].
Qed.

Lemma one_attempt_session (depth : nat) (ops : list op) (s : state) :
  one_attempt s → one_attempt (session depth ops s).
Proof.
  unfold session. revert s. induction ops as [| o ops IH]; intros s Hone; simpl.
  - exact Hone.
  - apply IH, one_attempt_step, Hone.
Qed.

(** X8: in every session (any calls made on a client since [__init__], in
    any world) at most one transport connection is ever attempted: the
    attempts made and the attempts left add up to one, the attempts left are
    0 or 1, and a client that has a websocket has made its one attempt and
    has none left.  A failing send, which reconnects, opens no second
    connection. *)
Theorem one_connection_attempt_per_session (depth : nat) (ops : list op)
    (sends conns : list bool) (ts : list tick) :
  (connects (session depth ops (boot sends conns ts)) ≤ 1)%nat
  ∧ Z.of_nat (connects (session depth ops (boot sends conns ts)))
    + number_try_connection (self (session depth ops (boot sends conns ts))) = 1
  ∧ (number_try_connection (self (session depth ops (boot sends conns ts))) = 0
     ∨ number_try_connection (self (session depth ops (boot sends conns ts))) = 1)
  ∧ (is_Some (ws (self (session depth ops (boot sends conns ts)))) →
     connects (session depth ops (boot sends conns ts)) = 1%nat
     ∧ number_try_connection (self (session depth ops (boot sends conns ts))) = 0).
Proof.
  assert (one_attempt (boot sends conns ts)) as Hboot.
  { split; [apply session_inv_boot | reflexivity]. }
  pose proof (one_attempt_session depth ops _ Hboot) as [(Hb & _ & _) Hsum].
  set (s := session depth ops (boot sends conns ts)) in *.
  split; [destruct Hb as [H | [H _]]; lia |]. split; [exact Hsum |].
  split; [destruct Hb as [H | [H _]]; [left | right]; exact H |].
  intros [w Hw]. destruct Hb as [H | [_ H]]; [| congruence]. split; [lia | exact H].
Qed.

(** ** What goes on the wire *)

Lemma disabled_trace (s : state) :
  ∃ evs, trace (env (disabled s)) = (trace (env s) ++ evs)%list ∧ silent_events evs.
Proof.
  unfold disabled. destruct (ensime (self s)); simpl_state.
  - exists [Stopped; Uncolorized; Warning]. rewrite <- !app_assoc. split; [reflexivity |].
    repeat constructor; discriminate.
  - exists [Uncolorized; Warning]. rewrite <- !app_assoc. split; [reflexivity |].
    repeat constructor; discriminate.
Qed.

Lemma send_request_wire (d : nat) (request : json) (s : state) (id : Z) (s' : state) :
  session_inv s →
  send_request (connect_ensime_server d) request s = Ok id s' →
  id = call_id (self s)
  ∧ (ws (self s) = None ∧ trace (env s') = trace (env s)
     ∨ is_Some (ws (self s))
       ∧ ∃ evs, trace (env s')
                = (trace (env s) ++ evs
                   ++ [Transmit (JObj [("callId", JInt id); ("req", request)])])%list
                ∧ silent_events evs).
Proof.
  intros Hinv Hrun.
  pose proof (send_request_returns (connect_ensime_server d) request s
                (connect_ensime_server_spent d) Hinv) as Hret.
  rewrite Hrun in Hret. destruct Hret as (Hid & _). split; [exact Hid |]. subst id.
  unfold send_request, bind, send in Hrun.
  set (msg := JObj [("callId", JInt (call_id (self s))); ("req", request)]) in *.
  destruct (ws (self s)) as [w |] eqn:Hws.
  - right. split; [eexists; reflexivity |].
    assert (number_try_connection (self s) = 0) as H0.
    { destruct Hinv as ([H | [_ H]] & _); [exact H | congruence]. }
    assert (∀ s0 rest0, trace (env (final (Ok tt (emit (Transmit msg) (set_send_script rest0 s0)))))
                        = (trace (env s0) ++ [Transmit msg])%list) as Hsent by reflexivity.
    assert (∀ s0, Ok (call_id (self s0))
                     (issue (call_id (self s0)) (set_call_id (call_id (self s0) + 1) s0))
                  = Ok (call_id (self s)) s' →
                  trace (env s') = trace (env s0)) as Hout.
    { intros s0 Heq. apply (f_equal final) in Heq. cbn [final] in Heq.
      subst s'. reflexivity. }
    unfold catch, ws_send in Hrun.
    destruct (send_script (env s)) as [| [|] rest] eqn:Hscript.
    + exists []. split; [| constructor].
      rewrite (Hout _ Hrun). reflexivity.
    + exists []. split; [| constructor].
      rewrite (Hout _ Hrun). reflexivity.
    + destruct (decide (WebSocketException = WebSocketException)); [| congruence].
      unfold reconnect, bind in Hrun. destruct d as [| d]; [discriminate Hrun |].
      set (s1 := set_send_script rest s) in *.
      assert (number_try_connection (self s1) = 0) as H1 by exact H0.
      rewrite (connect_ensime_server_refused d s1 (or_intror H1)) in Hrun.
      destruct (disabled_frame s1) as (Hws' & _).
      rewrite Hws' in Hrun. change (ws (self s1)) with (ws (self s)) in Hrun.
      rewrite Hws in Hrun.
      destruct (disabled_trace s1) as (evs & Htr & Hsilent).
      change (trace (env s1)) with (trace (env s)) in Htr.
      unfold ws_send in Hrun. exists evs. split; [| exact Hsilent].
      destruct (send_script (env (disabled s1))) as [| [|] rest'];
        try discriminate Hrun; rewrite (Hout _ Hrun);
        cbn [emit set_send_script self env trace]; rewrite Htr, <- app_assoc; reflexivity.
  - left. split; [reflexivity |].
    apply (f_equal final) in Hrun. cbn [final] in Hrun. subst s'. reflexivity.
Qed.

(** X9: in every session, a call of [send_request] that returns has put
    at most one message on the wire, as the last thing it did, and that
    message carries the id the call returns, with the request.  Without a
    websocket nothing is sent and the id is returned all the same. *)
Theorem send_request_sends_its_id (depth : nat) (ops : list op) (sends conns : list bool)
    (ts : list tick) (request : json) (id : Z) (s' : state) :
  send_request (connect_ensime_server depth) request (session depth ops (boot sends conns ts))
  = Ok id s' →
  ws (self (session depth ops (boot sends conns ts))) = None
  ∧ trace (env s') = trace (env (session depth ops (boot sends conns ts)))
  ∨ is_Some (ws (self (session depth ops (boot sends conns ts))))
    ∧ ∃ evs, trace (env s')
             = (trace (env (session depth ops (boot sends conns ts))) ++ evs
                ++ [Transmit (JObj [("callId", JInt id); ("req", request)])])%list
             ∧ silent_events evs.
Proof.
  intros Hrun.
  apply (send_request_wire depth request _ id s'); [| exact Hrun].
  apply session_inv_session, session_inv_boot.
Qed.

Lemma send_request_sends_its_id_witness :
  ws (self (session 2 [Setup (Some (Process 9001 0)); ConnectEnsimeServer]
              (boot [true; false; true] [true] (repeat (Tick [] [] 250) 120)))) = None
  ∧ trace (env (final (send_request (connect_ensime_server 2) (JStr "a")
                  (session 2 [Setup (Some (Process 9001 0)); ConnectEnsimeServer]
                     (boot [true; false; true] [true] (repeat (Tick [] [] 250) 120))))))
    = trace (env (session 2 [Setup (Some (Process 9001 0)); ConnectEnsimeServer]
                    (boot [true; false; true] [true] (repeat (Tick [] [] 250) 120))))
  ∨ is_Some (ws (self (session 2 [Setup (Some (Process 9001 0)); ConnectEnsimeServer]
                         (boot [true; false; true] [true] (repeat (Tick [] [] 250) 120)))))
    ∧ ∃ evs, trace (env (final (send_request (connect_ensime_server 2) (JStr "a")
                  (session 2 [Setup (Some (Process 9001 0)); ConnectEnsimeServer]
                     (boot [true; false; true] [true] (repeat (Tick [] [] 250) 120))))))
             = (trace (env (session 2 [Setup (Some (Process 9001 0)); ConnectEnsimeServer]
                    (boot [true; false; true] [true] (repeat (Tick [] [] 250) 120)))) ++ evs
                ++ [Transmit (JObj [("callId", JInt 2); ("req", JStr "a")])])%list
             ∧ silent_events evs.
Proof.
  apply (send_request_sends_its_id 2 [Setup (Some (Process 9001 0)); ConnectEnsimeServer]
           [true; false; true] [true] (repeat (Tick [] [] 250) 120) (JStr "a") 2).
  vm_compute. reflexivity.
Defined.

(** ** [connect_when_ready] *)

Lemma after_offline (ts : list tick) (s : state) :
  ws (self s) = None → offline_frame s (after ts s).
Proof.
  revert s. induction ts as [| t ts IH]; intros s Hws; simpl.
  - apply offline_frame_refl.
  - eapply offline_frame_trans; [apply advance_offline; exact Hws |].
    apply IH. destruct (advance_frame t s) as (H & _). congruence.
Qed.

Lemma await_ready_never (ts : list tick) (timeout : Z) (s : state) (p : process) :
  ensime (self s) = Some p →
  (∀ n, (n ≤ length ts)%nat → clock (env (after (take n ts) s)) < ready_at p) →
  (Z.to_nat timeout ≤ length ts)%nat →
  await_ready ts timeout s
  = Ok tt (set_ticks (drop (Z.to_nat timeout) ts) (after (take (Z.to_nat timeout) ts) s)).
Proof.
  revert timeout s. induction ts as [| t ts IH]; intros timeout s He Hnever Hlen.
  - simpl in Hlen. assert (Z.to_nat timeout = 0%nat) as -> by lia.
    pose proof (Hnever 0%nat (Nat.le_refl _)) as H0. simpl in H0.
    simpl. unfold is_ready. rewrite He.
    rewrite (proj2 (Z.leb_gt _ _) H0). simpl.
    destruct (Z.ltb_spec 0 timeout); [lia | reflexivity].
  - pose proof (Hnever 0%nat (Nat.le_0_l _)) as H0. simpl in H0.
    simpl. unfold is_ready. rewrite He.
    rewrite (proj2 (Z.leb_gt _ _) H0). simpl.
    destruct (Z.ltb_spec 0 timeout) as [Hpos | Hneg].
    + assert (Z.to_nat timeout = S (Z.to_nat (timeout - 1))) as Hn by lia.
      rewrite Hn. simpl. apply IH.
      * destruct (advance_frame t s) as (_ & H & _). congruence.
      * intros n Hle. apply (Hnever (S n)). simpl. lia.
      * simpl in Hlen. lia.
    + assert (Z.to_nat timeout = 0%nat) as -> by lia. reflexivity.
Qed.

(** X10: [connect_when_ready] on a client that has a server process and
    no websocket, when the server does not become ready: it sleeps once for
    each unit of the timeout (not at all for a timeout that is not
    positive), then gives up: it calls the fallback, [shutdown_server], and
    has attempted no transport connection and used no attempt. *)
Theorem connect_when_ready_gives_up (depth : nat) (timeout : Z) (s : state) (p : process) :
  ws (self s) = None →
  ensime (self s) = Some p →
  connected (self s) = false →
  (∀ n, (n ≤ length (ticks (env s)))%nat →
        clock (env (after (take n (ticks (env s))) s)) < ready_at p) →
  (Z.to_nat timeout ≤ length (ticks (env s)))%nat →
  connect_when_ready depth timeout shutdown_server s
  = shutdown_server (set_ticks (drop (Z.to_nat timeout) (ticks (env s)))
                       (after (take (Z.to_nat timeout) (ticks (env s))) s))
  ∧ returned (connect_when_ready depth timeout shutdown_server s) = Some tt
  ∧ connects (final (connect_when_ready depth timeout shutdown_server s)) = connects s
  ∧ number_try_connection (self (final (connect_when_ready depth timeout shutdown_server s)))
    = number_try_connection (self s)
  ∧ connected (self (final (connect_when_ready depth timeout shutdown_server s))) = false.
Proof.
  intros Hws He Hco Hnever Hlen.
  set (n := Z.to_nat timeout) in *.
  set (s1 := set_ticks (drop n (ticks (env s))) (after (take n (ticks (env s))) s)).
  destruct (after_offline (take n (ticks (env s))) s Hws) as (Hframe & Hco1 & _ & Hc1).
  destruct Hframe as (Hws1 & He1 & _ & _ & Hn1 & _).
  assert (connect_when_ready depth timeout shutdown_server s = shutdown_server s1) as Hrun.
  { unfold connect_when_ready. rewrite Hws. unfold bind at 1.
    rewrite (await_ready_never (ticks (env s)) timeout s p He Hnever Hlen). fold n. fold s1.
    unfold bind at 1, is_ready.
    assert (ensime (self s1) = Some p) as -> by (unfold s1; simpl_state; congruence).
    assert (clock (env s1) < ready_at p) as Hlate.
    { unfold s1. simpl_state. apply Hnever. exact Hlen. }
    rewrite (proj2 (Z.leb_gt _ _) Hlate). unfold bind, ret.
    assert (connected (self s1) = false) as -> by (unfold s1; simpl_state; congruence).
    reflexivity. }
  rewrite Hrun. split; [reflexivity |].
  destruct (shutdown_server_frame s1) as (_ & _ & _ & _ & Hn2 & _).
  split; [reflexivity |].
  split; [rewrite connects_shutdown_server; exact Hc1 |].
  split; [rewrite Hn2; exact Hn1 |].
  unfold shutdown_server. destruct (ensime (self (set_connected false s1))); reflexivity.
Qed.

Lemma connect_when_ready_gives_up_witness :
  connect_when_ready 2 2 shutdown_server
    (set_ensime (Some (Process 9001 (seconds 60)))
       (boot [] [true] (repeat (Tick [] [] 1000) 3)))
  = shutdown_server
      (set_ticks (drop 2 (repeat (Tick [] [] 1000) 3))
         (after (take 2 (repeat (Tick [] [] 1000) 3))
            (set_ensime (Some (Process 9001 (seconds 60)))
               (boot [] [true] (repeat (Tick [] [] 1000) 3))))).
Proof.
  apply (connect_when_ready_gives_up 2 2
           (set_ensime (Some (Process 9001 (seconds 60)))
              (boot [] [true] (repeat (Tick [] [] 1000) 3)))
           (Process 9001 (seconds 60))).
  - reflexivity.
  - reflexivity.
  - reflexivity.
  - intros n Hn. do 4 (destruct n as [| n]; [vm_compute; reflexivity |]).
    simpl in Hn. lia.
  - simpl. lia.
Defined.
